(** * Molecule file downloader: a shallow embedding and its properties

    This development embeds [Antiviral_Compounds_Download.py] and states
    the properties of its bulk-fetch pipeline; the script that writes the
    link files, [AntiViral_Compound_Link_Extraction.py], follows it.

    Modelling choices.
    - The program state is a [world]: the regular files of the disk
      (a finite map from paths to byte contents) and the chronological
      list of observable events (every [time.sleep] and every
      [requests.get]).
    - Python exceptions are an explicit error result; [try]/[except] is
      [try_except].  Only subclasses of [Exception] are modelled, split in
      the two classes the handlers distinguish.
    - The network and the random generator are an environment: for each
      attempt (indexed by the value of [retries]) the drawn polite delay,
      what [requests.get] and the body stream do, and the drawn jitter.
    - Durations are rationals; the rounding of floating point sums is not
      modelled.
    - The disk is reliable: opening a file for writing always works, a
      file that is absent cannot be read, sized or removed.  Directories
      are not tracked, so [ensure_directory_exists] has no counterpart.
      Text is decoded and encoded byte for byte.
    - Logging and the progress bar display are not modelled (the progress
      counter is).
    - The thread pool runs the submitted tasks one after another; the
      order in which finished tasks are collected is left to the
      environment. *)

From Stdlib Require Import ZArith QArith Lqa String Ascii List Lia.
From stdpp Require Import base gmap strings list sorting pretty.
From Equations Require Import Equations.

Local Open Scope string_scope.
Local Open Scope list_scope.

(** ** Configuration *)

Definition LINKS_DIRECTORY : string :=
  "F:\D\HARI PRASAD\VIRAL-TARGETS-SuperNaturalDatabase".
Definition OUTPUT_DIRECTORY : string :=
  "F:\D\HARI PRASAD\VIRAL-TARGETS-SuperNaturalDatabase".
Definition REQUEST_DELAY : Q * Q := (1 # 2, 2 # 1)%Q.
Definition MAX_RETRIES : nat := 3.
Definition MAX_WORKERS : nat := 5.

(** ** Program state, exceptions and the monad of effects *)

Inductive exn : Type :=
| RequestException   (* requests.exceptions.RequestException and subclasses *)
| OtherException.    (* any other subclass of Exception *)

Inductive outcome (A : Type) : Type :=
| Val (a : A)
| Exc (e : exn).
Arguments Val {A} a.
Arguments Exc {A} e.

Inductive event : Type :=
| EvSleep (seconds : Q)
| EvGet (url : string).

Record world : Type := World {
  files : gmap string (list Byte.byte);
  trace : list event
}.

Definition M (A : Type) : Type := world -> outcome A * world.

Definition ret {A : Type} (a : A) : M A := fun w => (Val a, w).

Definition bind {A B : Type} (m : M A) (k : A -> M B) : M B :=
  fun w =>
    match m w with
    | (Val a, w') => k a w'
    | (Exc e, w') => (Exc e, w')
    end.

Declare Scope M_scope.
Delimit Scope M_scope with M.
Bind Scope M_scope with M.
Notation "'let*' x ':=' m 'in' k" := (bind m (fun x => k))
  (at level 10, x name, m at level 100, k at level 200) : M_scope.
Notation "m ;; k" := (bind m (fun _ => k))
  (at level 100, k at level 200, right associativity) : M_scope.
Local Open Scope M_scope.

Definition raise {A : Type} (e : exn) : M A := fun w => (Exc e, w).

Definition try_except {A : Type} (body : M A) (handler : exn -> M A) : M A :=
  fun w =>
    match body w with
    | (Val a, w') => (Val a, w')
    | (Exc e, w') => handler e w'
    end.

(** ** The environment of one download *)

Inductive stream_end : Type :=
| StreamComplete
| StreamRaises (e : exn).

Record response : Type := Response {
  status_code : Z;
  chunks : list (list Byte.byte);   (* what iter_content yields, in order *)
  ending : stream_end               (* how the iteration ends *)
}.

Inductive get_reply : Type :=
| GetRaises (e : exn)
| Responded (r : response).

Record attempt_env : Type := AttemptEnv {
  polite_delay : Q;    (* random.uniform( *REQUEST_DELAY ) *)
  reply : get_reply;   (* requests.get(...) *)
  jitter : Q           (* random.random() *)
}.

(** What the random generator promises. *)
Definition random_ok (a : attempt_env) : Prop :=
  (fst REQUEST_DELAY <= polite_delay a /\ polite_delay a <= snd REQUEST_DELAY
   /\ 0 <= jitter a /\ jitter a < 1)%Q.

(** ** Primitive operations *)

Definition log_event (e : event) : M unit :=
  fun w => (Val tt, World (files w) (trace w ++ [e])).

Definition time_sleep (seconds : Q) : M unit := log_event (EvSleep seconds).

Definition requests_get (a : attempt_env) (url : string) : M response :=
  log_event (EvGet url);;
  match reply a with
  | GetRaises e => raise e
  | Responded r => ret r
  end.

(** [open(path, 'wb')]: creates or truncates. *)
Definition open_wb (path : string) : M unit :=
  fun w => (Val tt, World (<[path := []]> (files w)) (trace w)).

(** [f.write(chunk)]: the file is flushed on every way out of the [with]
    block, so the bytes written so far are what ends up on disk. *)
Definition file_write (path : string) (data : list Byte.byte) : M unit :=
  fun w =>
    (Val tt,
     World (<[path := default [] (files w !! path) ++ data]> (files w))
           (trace w)).

Definition end_of_stream (e : stream_end) : M unit :=
  match e with
  | StreamComplete => ret tt
  | StreamRaises x => raise x
  end.

(** [for chunk in response.iter_content(...): if chunk: f.write(chunk)] *)
Fixpoint iter_content_write (path : string) (cs : list (list Byte.byte))
    (e : stream_end) : M unit :=
  match cs with
  | [] => end_of_stream e
  | chunk :: rest =>
      (match chunk with
       | [] => ret tt
       | _ :: _ => file_write path chunk
       end);;
      iter_content_write path rest e
  end.

(** [open(path, 'r').read()] *)
Definition read_text (path : string) : M string :=
  fun w =>
    match files w !! path with
    | Some content => (Val (string_of_list_byte content), w)
    | None => (Exc OtherException, w)
    end.

(** [open(path, 'w')] followed by the writes of [text]. *)
Definition write_text (path : string) (text : string) : M unit :=
  fun w =>
    (Val tt, World (<[path := list_byte_of_string text]> (files w)) (trace w)).

Definition os_path_exists (path : string) : M bool :=
  fun w => (Val (bool_decide (is_Some (files w !! path))), w).

Definition os_path_isfile (path : string) : M bool :=
  fun w => (Val (bool_decide (is_Some (files w !! path))), w).

Definition os_path_getsize (path : string) : M nat :=
  fun w =>
    match files w !! path with
    | Some content => (Val (length content), w)
    | None => (Exc OtherException, w)
    end.

Definition os_remove (path : string) : M unit :=
  fun w =>
    match files w !! path with
    | Some _ => (Val tt, World (delete path (files w)) (trace w))
    | None => (Exc OtherException, w)
    end.

(** ** os.path (the Windows flavour, as the configured paths are) *)

Module ospath.

Definition is_sep (c : ascii) : bool :=
  Ascii.eqb c "\"%char || Ascii.eqb c "/"%char.

Definition is_dot (c : ascii) : bool := Ascii.eqb c "."%char.

Fixpoint has_char (p : ascii -> bool) (s : string) : bool :=
  match s with
  | EmptyString => false
  | String c rest => p c || has_char p rest
  end.

Fixpoint all_chars (p : ascii -> bool) (s : string) : bool :=
  match s with
  | EmptyString => true
  | String c rest => p c && all_chars p rest
  end.

(** What follows the last separator. *)
Fixpoint after_last_sep (p : string) : string :=
  match p with
  | EmptyString => EmptyString
  | String c rest =>
      if has_char is_sep rest then after_last_sep rest
      else if is_sep c then rest else p
  end.

(** A leading drive letter is set aside first; UNC roots are not
    modelled. *)
Definition splitdrive_rest (p : string) : string :=
  match p with
  | String _ (String ":" rest) => rest
  | _ => p
  end.

Definition basename (p : string) : string :=
  after_last_sep (splitdrive_rest p).

(** What precedes the last dot (of a string that has one). *)
Fixpoint before_last_dot (s : string) : string :=
  match s with
  | EmptyString => EmptyString
  | String c rest =>
      if has_char is_dot rest then String c (before_last_dot rest)
      else EmptyString
  end.

(** [os.path.splitext(p)[0]]: the extension starts at the last dot,
    when that dot comes after the last separator and is not one of the
    dots the file name starts with. *)
Definition splitext_root (p : string) : string :=
  if has_char is_dot (after_last_sep p) then
    let root := before_last_dot p in
    if all_chars is_dot (after_last_sep root) then p else root
  else p.

(** [os.path.join(directory, name)] for a relative [name] without drive
    and a [directory] that does not end with a separator. *)
Definition join (directory name : string) : string :=
  directory +:+ "\" +:+ name.

End ospath.

(** [s.endswith(suffix)] *)
Fixpoint endswith (s suffix : string) : bool :=
  if String.eqb s suffix then true
  else match s with
       | EmptyString => false
       | String _ rest => endswith rest suffix
       end.

(** [str.isspace] on the characters one byte can hold. *)
Definition isspace (c : ascii) : bool :=
  let n := nat_of_ascii c in
  ((9 <=? n)%nat && (n <=? 13)%nat) || ((28 <=? n)%nat && (n <=? 32)%nat)
  || (n =? 133)%nat || (n =? 160)%nat.

Fixpoint lstrip (s : string) : string :=
  match s with
  | EmptyString => EmptyString
  | String c rest => if isspace c then lstrip rest else s
  end.

Fixpoint rstrip (s : string) : string :=
  match s with
  | EmptyString => EmptyString
  | String c rest =>
      match rstrip rest with
      | EmptyString => if isspace c then EmptyString else String c EmptyString
      | r => String c r
      end
  end.

Definition strip (s : string) : string := rstrip (lstrip s).

(** ** download_molecule *)

(** [(2 ** retries) + random.random()] *)
Definition backoff (a : attempt_env) (retries : nat) : Q :=
  (inject_Z (2 ^ Z.of_nat retries) + jitter a)%Q.

Equations download_molecule (net : nat -> attempt_env)
    (url output_path : string) (retries : nat) : M bool
    by wf (MAX_RETRIES - retries) lt :=
download_molecule net url output_path retries :=
  try_except
    (time_sleep (polite_delay (net retries));;
     let* response := requests_get (net retries) url in
     if (status_code response =? 200)%Z then
       open_wb output_path;;
       iter_content_write output_path (chunks response) (ending response);;
       ret true
     else
       match lt_dec retries MAX_RETRIES with
       | left _ =>
           time_sleep (backoff (net retries) retries);;
           download_molecule net url output_path (S retries)
       | right _ => ret false
       end)
    (fun e =>
       match e with
       | RequestException =>
           match lt_dec retries MAX_RETRIES with
           | left _ =>
               time_sleep (backoff (net retries) retries);;
               download_molecule net url output_path (S retries)
           | right _ => ret false
           end
       | OtherException => ret false
       end).
Next Obligation. unfold MAX_RETRIES in *. lia. Qed.
Next Obligation. unfold MAX_RETRIES in *. lia. Qed.

(** ** process_link_file *)

Definition compound_id_of (file_path : string) : string :=
  ospath.splitext_root (ospath.basename file_path).

Definition output_path_of (file_path : string) : string :=
  ospath.join OUTPUT_DIRECTORY (compound_id_of file_path +:+ ".mol").

(** [a and b] on effectful operands: [b] is run only when [a] holds. *)
Definition and_then (a b : M bool) : M bool :=
  let* x := a in if x then b else ret false.

Definition process_link_file (net : nat -> attempt_env) (file_path : string)
    : M (string * bool) :=
  try_except
    (let file_name := ospath.basename file_path in
     let compound_id := ospath.splitext_root file_name in
     let* text := read_text file_path in
     let url := strip text in
     if String.eqb url EmptyString then ret (compound_id, false)
     else
       let output_path :=
         ospath.join OUTPUT_DIRECTORY (compound_id +:+ ".mol") in
       let* success := download_molecule net url output_path 0 in
       let* valid :=
         and_then (ret success)
           (and_then (os_path_exists output_path)
              (let* size := os_path_getsize output_path in
               ret (0 <? size)%nat)) in
       if valid then ret (compound_id, true)
       else
         let* empty :=
           and_then (os_path_exists output_path)
             (let* size := os_path_getsize output_path in
              ret (size =? 0)%nat) in
         (if empty then os_remove output_path else ret tt);;
         ret (compound_id, false))
    (fun _ => ret (ospath.basename file_path, false)).

(** ** main *)

Record main_env : Type := MainEnv {
  listdir : option (list string);        (* os.listdir(LINKS_DIRECTORY) *)
  net_of : string -> nat -> attempt_env; (* what each link file's download meets *)
  finish_time : nat -> nat               (* when the i-th submitted task finishes *)
}.

Definition os_listdir (env : main_env) : M (list string) :=
  match listdir env with
  | Some names => ret names
  | None => raise OtherException
  end.

(** The list comprehension that gathers the link files. *)
Fixpoint gather_link_files (names : list string) : M (list string) :=
  match names with
  | [] => ret []
  | f :: rest =>
      let* keep :=
        and_then (ret (endswith f ".txt"))
          (os_path_isfile (ospath.join LINKS_DIRECTORY f)) in
      let* others := gather_link_files rest in
      ret (if keep then ospath.join LINKS_DIRECTORY f :: others else others)
  end.

(** A future holds what its task returned or raised. *)
Definition future : Type := outcome (string * bool).

Definition submit (task : M (string * bool)) : M future :=
  fun w => let '(r, w') := task w in (Val r, w').

Fixpoint submit_all (env : main_env) (link_files : list string)
    : M (list future) :=
  match link_files with
  | [] => ret []
  | file_path :: rest =>
      let* fut := submit (process_link_file (net_of env file_path) file_path) in
      let* futs := submit_all env rest in
      ret (fut :: futs)
  end.

Definition finishes_before (a b : nat * future) : Prop :=
  (fst a <= fst b)%nat.

#[export] Instance finishes_before_dec (a b : nat * future) :
  Decision (finishes_before a b).
Proof. unfold finishes_before. apply _. Defined.

(** [concurrent.futures.as_completed]: every future once, by finish time. *)
Definition as_completed (env : main_env) (futs : list future) : list future :=
  map snd
    (merge_sort finishes_before
       (imap (fun i fut => (finish_time env i, fut)) futs)).

Record tally : Type := Tally {
  successful_downloads : nat;
  failed_downloads : nat;
  pbar : nat
}.

(** The body of the collecting loop. *)
Definition collect (t : tally) (fut : future) : tally :=
  match fut with
  | Val (_, true) =>
      Tally (successful_downloads t + 1) (failed_downloads t) (pbar t + 1)
  | Val (_, false) =>
      Tally (successful_downloads t) (failed_downloads t + 1) (pbar t + 1)
  | Exc _ =>
      Tally (successful_downloads t) (failed_downloads t + 1) (pbar t + 1)
  end.

Definition newline : string := String (ascii_of_nat 10) EmptyString.

Definition summary_text (total_files successful failed : nat) : string :=
  "Total files processed: " +:+ pretty total_files +:+ newline +:+
  "Successfully downloaded: " +:+ pretty successful +:+ newline +:+
  "Failed downloads: " +:+ pretty failed +:+ newline.

Definition summary_path : string :=
  ospath.join OUTPUT_DIRECTORY "download_summary.txt".

Definition main (env : main_env) : M unit :=
  let* gathered :=
    try_except
      (let* names := os_listdir env in
       let* link_files := gather_link_files names in
       ret (Some link_files))
      (fun _ => ret None) in
  match gathered with
  | None => ret tt
  | Some link_files =>
      let total_files := length link_files in
      if (total_files =? 0)%nat then ret tt
      else
        let* futs := submit_all env link_files in
        let t := fold_left collect (as_completed env futs) (Tally 0 0 0) in
        try_except
          (write_text summary_path
             (summary_text total_files (successful_downloads t)
                (failed_downloads t)))
          (fun _ => ret tt)
  end.

(** ** The link extraction script

    [AntiViral_Compound_Link_Extraction.py] writes the link files that the
    downloader reads.  The browser is an environment: for each identifier
    looked up, what the waits on the page end in.  The two counters are
    part of the state, as they are variables that an exception leaves as
    they are.  The text file of identifiers is read with universal
    newlines.  Closing the browser in the [finally] block changes nothing
    that is modelled. *)

Module LinkExtraction.

Definition DRIVER_PATH : string :=
  "C:\Users\SEL NIVEDI\Videos\HARI\chromedriver-win64\chromedriver.exe".
Definition DOWNLOAD_DIRECTORY : string :=
  "C:\Users\SEL NIVEDI\Videos\HARI\compounds".
Definition ID_FILE_PATH : string :=
  "C:\Users\SEL NIVEDI\Videos\HARI\unique_ids.txt".
Definition BASE_URL : string :=
  "https://bioinf-applied.charite.de/supernatural_3/subpages/compounds.php".
Definition REQUEST_DELAY : Q * Q := (1, 3)%Q.

(** How [WebDriverWait(...).until(...)] ends: with the element, with a
    TimeoutException, or with another exception. *)
Inductive wait_result (A : Type) : Type :=
| Located (a : A)
| TimedOut
| Failed.
Arguments Located {A} a.
Arguments TimedOut {A}.
Arguments Failed {A}.

Record page : Type := Page {
  search_submitted : bool;                  (* opening the page up to the click *)
  no_compounds_banner : wait_result unit;   (* the 'No compounds found' text *)
  mol_file_link : wait_result (option string)  (* the link and its href *)
}.

Definition get_link_url (p : page) : option string :=
  if search_submitted p then
    match no_compounds_banner p with
    | Located _ => None
    | TimedOut =>
        match mol_file_link p with
        | Located href => href
        | TimedOut => None
        | Failed => None
        end
    | Failed => None
    end
  else None.

Record env : Type := Env {
  driver_starts : bool;   (* initialize_webdriver returns a driver *)
  pages : nat -> page;    (* what the lookup of the line with this index shows *)
  delays : nat -> Q       (* random.uniform( *REQUEST_DELAY ) after that lookup *)
}.

Record session : Type := Session {
  disk : world;
  successful_downloads : nat;
  failed_downloads : nat
}.

Definition Script (A : Type) : Type := session -> outcome A * session.

Definition ret_script {A : Type} (a : A) : Script A := fun s => (Val a, s).

Definition bind_script {A B : Type} (m : Script A) (k : A -> Script B)
    : Script B :=
  fun s =>
    match m s with
    | (Val a, s') => k a s'
    | (Exc e, s') => (Exc e, s')
    end.

Definition try_except_script {A : Type} (body : Script A)
    (handler : exn -> Script A) : Script A :=
  fun s =>
    match body s with
    | (Val a, s') => (Val a, s')
    | (Exc e, s') => handler e s'
    end.

(** An operation on the disk and the clock, run in a session. *)
Definition lift {A : Type} (m : M A) : Script A :=
  fun s =>
    let '(r, w') := m (disk s) in
    (r, Session w' (successful_downloads s) (failed_downloads s)).

Declare Scope Script_scope.
Delimit Scope Script_scope with Script.
Bind Scope Script_scope with Script.
Notation "'let*' x ':=' m 'in' k" := (bind_script m (fun x => k))
  (at level 10, x name, m at level 100, k at level 200) : Script_scope.
Notation "m ;; k" := (bind_script m (fun _ => k))
  (at level 100, k at level 200, right associativity) : Script_scope.
Local Open Scope Script_scope.

Definition reset_counters : Script unit :=
  fun s => (Val tt, Session (disk s) 0 0).

Definition count_successful : Script unit :=
  fun s =>
    (Val tt,
     Session (disk s) (successful_downloads s + 1) (failed_downloads s)).

Definition count_failed : Script unit :=
  fun s =>
    (Val tt,
     Session (disk s) (successful_downloads s) (failed_downloads s + 1)).

Definition initialize_webdriver (e : env) : Script unit :=
  if driver_starts e then ret_script tt else fun s => (Exc OtherException, s).

Definition line_feed : ascii := ascii_of_nat 10.
Definition carriage_return : ascii := ascii_of_nat 13.

(** [file.readlines()] of a text file: a line ends at a line feed, at a
    carriage return or at both in a row, and keeps one line feed. *)
Fixpoint readlines_from (text line : string) : list string :=
  match text with
  | EmptyString =>
      match line with
      | EmptyString => []
      | _ => [line]
      end
  | String c rest =>
      if Ascii.eqb c line_feed then
        (line +:+ newline) :: readlines_from rest EmptyString
      else if Ascii.eqb c carriage_return then
        match rest with
        | EmptyString => [line +:+ newline]
        | String c2 rest2 =>
            if Ascii.eqb c2 line_feed then
              (line +:+ newline) :: readlines_from rest2 EmptyString
            else (line +:+ newline) :: readlines_from rest EmptyString
        end
      else readlines_from rest (line +:+ String c EmptyString)
  end.

Definition readlines (text : string) : list string :=
  readlines_from text EmptyString.

(** The body of the loop for a line that is not blank. *)
Definition process_id (e : env) (index : nat) (compound_id : string)
    : Script unit :=
  try_except_script
    (let link_url := get_link_url (pages e index) in
     (match link_url with
      | Some (String c u) =>
          let url_file_path :=
            ospath.join DOWNLOAD_DIRECTORY (compound_id +:+ ".txt") in
          try_except_script
            (lift (write_text url_file_path (String c u));;
             count_successful)
            (fun _ => count_failed)
      | _ => count_failed
      end);;
     lift (time_sleep (delays e index)))
    (fun _ => count_failed).

(** [for index, compound_id in enumerate(ids)] *)
Fixpoint process_each (e : env) (ids : list string) (index : nat)
    : Script unit :=
  match ids with
  | [] => ret_script tt
  | compound_id :: rest =>
      (if String.eqb compound_id EmptyString then ret_script tt
       else process_id e index compound_id);;
      process_each e rest (S index)
  end.

Definition process_ids (e : env) (id_file : string) : Script unit :=
  let* present := lift (os_path_exists id_file) in
  if negb present then ret_script tt
  else
    try_except_script
      (let* text := lift (read_text id_file) in
       let ids := map strip (readlines text) in
       reset_counters;;
       initialize_webdriver e;;
       process_each e ids 0)
      (fun _ => ret_script tt).

(** *** Vocabulary of the statements about the script *)

(** Where the link of an identifier is written. *)
Definition link_path (compound_id : string) : string :=
  ospath.join DOWNLOAD_DIRECTORY (compound_id +:+ ".txt").

(** The URL that a lookup gives, when it gives one that is not empty. *)
Definition found_url (e : env) (index : nat) : option string :=
  match get_link_url (pages e index) with
  | Some (String c u) => Some (String c u)
  | _ => None
  end.

(** One lookup: the index of the line, the identifier on it, the URL. *)
Record lookup : Type := Lookup {
  at_index : nat;
  of_id : string;
  url_found : option string
}.

(** The lookups of a run, in order: one for each line that is not blank. *)
Fixpoint lookups (e : env) (ids : list string) (index : nat) : list lookup :=
  match ids with
  | [] => []
  | compound_id :: rest =>
      if String.eqb compound_id EmptyString then lookups e rest (S index)
      else Lookup index compound_id (found_url e index)
           :: lookups e rest (S index)
  end.

Fixpoint count_found (ls : list lookup) : nat :=
  match ls with
  | [] => 0
  | l :: rest =>
      (match url_found l with Some _ => 1 | None => 0 end) + count_found rest
  end.

(** The session after one lookup. *)
Definition after_lookup (e : env) (s : session) (l : lookup) : session :=
  match url_found l with
  | Some u =>
      Session
        (World (<[link_path (of_id l) := list_byte_of_string u]>
                  (files (disk s)))
               (trace (disk s) ++ [EvSleep (delays e (at_index l))]))
        (successful_downloads s + 1) (failed_downloads s)
  | None =>
      Session
        (World (files (disk s))
               (trace (disk s) ++ [EvSleep (delays e (at_index l))]))
        (successful_downloads s) (failed_downloads s + 1)
  end.

(** The identifiers of a file of identifiers, blank lines included. *)
Definition ids_of (content : list Byte.byte) : list string :=
  map strip (readlines (string_of_list_byte content)).

End LinkExtraction.

(** ** Observations on worlds *)

Fixpoint count_gets (t : list event) : nat :=
  match t with
  | [] => 0
  | EvGet _ :: rest => S (count_gets rest)
  | EvSleep _ :: rest => count_gets rest
  end.

(** Number of requests sent so far. *)
Definition attempts (w : world) : nat := count_gets (trace w).

Fixpoint total_sleep (t : list event) : Q :=
  match t with
  | [] => 0
  | EvSleep d :: rest => d + total_sleep rest
  | EvGet _ :: rest => total_sleep rest
  end.

(** ** What one attempt does *)

Inductive verdict : Type :=
| Done (b : bool)   (* the call returns [b] *)
| Again.            (* the call takes a retry branch *)

Definition attempt_verdict (a : attempt_env) : verdict :=
  match reply a with
  | GetRaises RequestException => Again
  | GetRaises OtherException => Done false
  | Responded r =>
      if (status_code r =? 200)%Z then
        match ending r with
        | StreamComplete => Done true
        | StreamRaises RequestException => Again
        | StreamRaises OtherException => Done false
        end
      else Again
  end.

(** An attempt that fails in a way the code retries: a status other than
    200, or a network-level error (while connecting or while streaming). *)
Definition transient_failure (a : attempt_env) : bool :=
  match attempt_verdict a with
  | Again => true
  | Done _ => false
  end.

(** Neither a status 200 nor an unexpected error. *)
Definition no_success_status (a : attempt_env) : bool :=
  match reply a with
  | GetRaises _ => true
  | Responded r => negb (status_code r =? 200)%Z
  end.

(** The disk after the attempt: a response with status 200 replaces the
    destination by the bytes received. *)
Definition attempt_files (a : attempt_env) (output_path : string)
    (fs : gmap string (list Byte.byte)) : gmap string (list Byte.byte) :=
  match reply a with
  | GetRaises _ => fs
  | Responded r =>
      if (status_code r =? 200)%Z then <[output_path := concat (chunks r)]> fs
      else fs
  end.

Definition attempt_world (a : attempt_env) (url output_path : string)
    (w : world) : world :=
  World (attempt_files a output_path (files w))
        (trace w ++ [EvSleep (polite_delay a); EvGet url]).

Definition backoff_world (a : attempt_env) (retries : nat) (w : world)
    : world :=
  World (files w) (trace w ++ [EvSleep (backoff a retries)]).

(** The world after [k] retried attempts, the first one with [retries]. *)
Fixpoint retried (net : nat -> attempt_env) (url output_path : string)
    (retries k : nat) (w : world) : world :=
  match k with
  | 0 => w
  | S k' =>
      retried net url output_path (S retries) k'
        (backoff_world (net retries) retries
           (attempt_world (net retries) url output_path w))
  end.

(** The events of [k] retried attempts: polite delay, request, and the
    backoff delay [2 ^ i + jitter] before the next attempt. *)
Definition retry_trace (net : nat -> attempt_env) (url : string)
    (retries k : nat) : list event :=
  flat_map
    (fun i =>
       [EvSleep (polite_delay (net i)); EvGet url;
        EvSleep (inject_Z (2 ^ Z.of_nat i) + jitter (net i))%Q])
    (seq retries k).

Fixpoint sum_backoff (net : nat -> attempt_env) (retries k : nat) : Q :=
  match k with
  | 0 => 0
  | S k' => backoff (net retries) retries + sum_backoff net (S retries) k'
  end.

(** ** Vocabulary of the statements *)

(** The URL a link file holds, when the file can be read. *)
Definition link_url (file_path : string) (w : world) : option string :=
  match files w !! file_path with
  | Some content => Some (strip (string_of_list_byte content))
  | None => None
  end.

(** The check after the download: the verdict, and the disk once a
    zero-byte destination has been removed. *)
Definition validated (output_path : string) (success : bool) (w : world)
    : bool * world :=
  match files w !! output_path with
  | Some [] => (false, World (delete output_path (files w)) (trace w))
  | Some (_ :: _) => (success, w)
  | None => (false, w)
  end.

(** A complete response with status 200 after [k] transient failures. *)
Definition succeeds_at (net : nat -> attempt_env) (k : nat) (resp : response)
    : Prop :=
  (forall i, i < k -> transient_failure (net i) = true)
  /\ reply (net k) = Responded resp
  /\ status_code resp = 200%Z
  /\ ending resp = StreamComplete.

(** A response with status 200 whose body stream breaks. *)
Definition interrupted (a : attempt_env) : bool :=
  match reply a with
  | GetRaises _ => false
  | Responded r =>
      (status_code r =? 200)%Z
      && match ending r with
         | StreamComplete => false
         | StreamRaises _ => true
         end
  end.

(** The link files that main gathers from a listing. *)
Fixpoint link_files_of (names : list string) (w : world) : list string :=
  match names with
  | [] => []
  | f :: rest =>
      if endswith f ".txt"
         && bool_decide (is_Some (files w !! ospath.join LINKS_DIRECTORY f))
      then ospath.join LINKS_DIRECTORY f :: link_files_of rest w
      else link_files_of rest w
  end.

(** The outcome that belongs to a link file: it carries the compound
    identifier, or the file name when the task failed unexpectedly. *)
Definition outcome_for (file_path : string) (fut : future) : Prop :=
  exists id b,
    fut = Val (id, b)
    /\ (id = compound_id_of file_path
        \/ (id = ospath.basename file_path /\ b = false)).

Definition succeeded (fut : future) : bool :=
  match fut with
  | Val (_, true) => true
  | _ => false
  end.

Fixpoint count_succeeded (futs : list future) : nat :=
  match futs with
  | [] => 0
  | fut :: rest =>
      (if succeeded fut then 1 else 0) + count_succeeded rest
  end.

(** Identifiers that name a file in a directory: no separator, no colon,
    and some character that is not a dot. *)
Definition is_colon (c : ascii) : bool := Ascii.eqb c ":"%char.

Definition plain_identifier (id : string) : Prop :=
  ospath.has_char ospath.is_sep id = false
  /\ ospath.has_char is_colon id = false
  /\ ospath.all_chars ospath.is_dot id = false.

(** The longest a download can sleep from the attempt with [retries] on,
    with [n] retries left: 2 seconds of polite delay for each attempt and
    less than [2 ^ retries + 1] seconds before each retry. *)
Fixpoint worst_sleep (n retries : nat) : Q :=
  match n with
  | 0 => 2
  | S n' =>
      2 + (inject_Z (2 ^ Z.of_nat retries) + 1)
      + worst_sleep n' (S retries)
  end.

(** The link file holds a URL and the first reply to its download is a
    complete response with status 200 and a non-empty body. *)
Definition first_reply_succeeds (env : main_env) (w : world)
    (file_path : string) : Prop :=
  exists url resp,
    link_url file_path w = Some url
    /\ url <> EmptyString
    /\ reply (net_of env file_path 0) = Responded resp
    /\ status_code resp = 200%Z
    /\ ending resp = StreamComplete
    /\ concat (chunks resp) <> [].

(** A non-empty file. *)
Definition nonempty_at (p : string) (w : world) : Prop :=
  exists content, files w !! p = Some content /\ content <> [].

(** ** Concrete inputs *)

Module Scenario.

Definition link_file : string := ospath.join LINKS_DIRECTORY "id1.txt".
Definition destination : string := output_path_of link_file.
Definition url : string := "https://x/a.mol".

Definition bytes (s : string) : list Byte.byte := list_byte_of_string s.

(** A disk that holds the link file only. *)
Definition fresh : world :=
  World {[ link_file := bytes (url +:+ newline) ]} [].

(** The same disk with an artifact of an earlier run. *)
Definition rerun : world :=
  World (<[destination := bytes "ABC"]> (files fresh)) [].

Definition ok (body : list (list Byte.byte)) : attempt_env :=
  AttemptEnv (1 # 2) (Responded (Response 200 body StreamComplete)) (1 # 4).
Definition not_found : attempt_env :=
  AttemptEnv 1 (Responded (Response 404 [] StreamComplete)) (1 # 4).
Definition timeout : attempt_env :=
  AttemptEnv 2 (GetRaises RequestException) (3 # 4).
Definition cut_off : attempt_env :=
  AttemptEnv 1
    (Responded (Response 200 [bytes "AB"] (StreamRaises RequestException)))
    (1 # 4).

Definition body : list (list Byte.byte) := [bytes "AB"; []; bytes "C"].

Definition always (a : attempt_env) : nat -> attempt_env := fun _ => a.
Definition after (k : nat) (a b : attempt_env) : nat -> attempt_env :=
  fun i => if (i <? k)%nat then a else b.

(** One 404, then a complete 200. *)
Definition not_found_then_ok : nat -> attempt_env :=
  after 1 not_found (ok body).


(** A directory listing with one link file and one other file; every
    request is answered by a complete 200. *)
Definition one_link : main_env :=
  MainEnv (Some ["id1.txt"; "readme.md"]) (fun _ => always (ok body))
    (fun i => i).

(** A listing without link files, and a listing that fails. *)
Definition no_links : main_env :=
  MainEnv (Some ["readme.md"]) (fun _ => always (ok body)) (fun i => i).
Definition unreadable : main_env :=
  MainEnv None (fun _ => always (ok body)) (fun i => i).

(** A disk without link files and without summary. *)
Definition bare : world :=
  World {[ ospath.join LINKS_DIRECTORY "readme.md" := bytes "notes" ]} [].


(** A transfer that an unexpected error cuts after two bytes. *)
Definition cut_unexpectedly : attempt_env :=
  AttemptEnv 1
    (Responded (Response 200 [bytes "AB"] (StreamRaises OtherException)))
    (1 # 4).

(** A link file with white space only. *)
Definition blank_link : string := ospath.join LINKS_DIRECTORY "id2.txt".
Definition blank : world :=
  World {[ blank_link := bytes ("  " +:+ newline) ]} [].

(** A file of three lines, the second one blank, and a browser that finds
    a link for the first line only. *)
Definition id_file : string := LinkExtraction.ID_FILE_PATH.
Definition id_text : string :=
  "SN0001" +:+ newline +:+ newline +:+ " SN0002 " +:+ newline.
Definition extraction_start : LinkExtraction.session :=
  LinkExtraction.Session (World {[ id_file := bytes id_text ]} []) 7 7.
Definition page_with_link : LinkExtraction.page :=
  LinkExtraction.Page true LinkExtraction.TimedOut
    (LinkExtraction.Located (Some url)).
Definition page_without_compound : LinkExtraction.page :=
  LinkExtraction.Page true (LinkExtraction.Located tt)
    LinkExtraction.TimedOut.
Definition browser : LinkExtraction.env :=
  LinkExtraction.Env true
    (fun i => if (i =? 0)%nat then page_with_link else page_without_compound)
    (fun _ => 2%Q).

End Scenario.

(** ** Basic facts *)

Ltac norm_world :=
  repeat (progress cbn [files trace app] || rewrite <- app_assoc).

Example basename_of_link_file :
  ospath.basename "F:\D\links\SN0001.txt" = "SN0001.txt".
Proof. reflexivity. Qed.

Example splitext_root_examples :
  ospath.splitext_root "SN0001.txt" = "SN0001"
  /\ ospath.splitext_root "a.b.txt" = "a.b"
  /\ ospath.splitext_root ".txt" = ".txt"
  /\ ospath.splitext_root "dir.d\name" = "dir.d\name".
Proof. repeat split. Qed.

Example endswith_examples :
  endswith "SN0001.txt" ".txt" = true /\ endswith "txt" ".txt" = false.
Proof. split; reflexivity. Qed.

Example strip_example :
  strip (" https://x/a.mol " +:+ newline) = "https://x/a.mol".
Proof. reflexivity. Qed.

Example destination_of_link_file :
  Scenario.destination
  = "F:\D\HARI PRASAD\VIRAL-TARGETS-SuperNaturalDatabase\id1.mol".
Proof. reflexivity. Qed.

Lemma world_eta (w : world) : World (files w) (trace w) = w.
Proof. destruct w; reflexivity. Qed.

Lemma retries_ind (P : nat -> Prop) :
  (forall r, (r < MAX_RETRIES -> P (S r)) -> P r) -> forall r, P r.
Proof.
  intros step r.
  remember (MAX_RETRIES - r) as n eqn:Hn.
  revert r Hn. induction n as [|n IH]; intros r Hn.
  - apply step. intros Hlt. lia.
  - apply step. intros Hlt. apply IH. lia.
Qed.

Lemma iter_content_write_spec (path : string) (cs : list (list Byte.byte))
    (e : stream_end) (w : world) (pre : list Byte.byte) :
  files w !! path = Some pre ->
  iter_content_write path cs e w =
    (match e with StreamComplete => Val tt | StreamRaises x => Exc x end,
     World (<[path := pre ++ concat cs]> (files w)) (trace w)).
Proof.
  revert w pre. induction cs as [|chunk rest IH]; intros w pre Hpre.
  - simpl. rewrite app_nil_r, (insert_id _ _ _ Hpre), world_eta.
    destruct e; reflexivity.
  - destruct chunk as [|b chunk].
    + simpl. unfold bind at 1. unfold ret at 1. apply IH, Hpre.
    + cbn [iter_content_write]. unfold bind at 1. unfold file_write at 1.
      rewrite Hpre. cbn [default].
      erewrite IH; [|cbn [files]; apply lookup_insert_eq].
      cbn [files trace concat]. rewrite insert_insert_eq, <- app_assoc.
      reflexivity.
Qed.

(** The recursive call sits inside the [try] block, so that what one call
    does depends on the inner call not raising: both facts are proved
    together. *)
Lemma download_step_value (net : nat -> attempt_env)
    (url output_path : string) (retries : nat) :
  forall w : world,
    download_molecule net url output_path retries w =
      match attempt_verdict (net retries) with
      | Done b => (Val b, attempt_world (net retries) url output_path w)
      | Again =>
          if lt_dec retries MAX_RETRIES then
            download_molecule net url output_path (S retries)
              (backoff_world (net retries) retries
                 (attempt_world (net retries) url output_path w))
          else (Val false, attempt_world (net retries) url output_path w)
      end
    /\ exists b w', download_molecule net url output_path retries w = (Val b, w').
Proof.
  induction retries as [r IH] using retries_ind. intros w.
  assert (Hrec : forall (l : r < MAX_RETRIES) w2,
             (let (o, w') := download_molecule net url output_path (S r) w2 in
              match o with
              | Val a => (Val a, w')
              | Exc e =>
                  match e with
                  | RequestException => fun w0 : world =>
                      download_molecule net url output_path (S r)
                        (World (files w0)
                           (trace w0 ++ [EvSleep (backoff (net r) r)]))
                  | OtherException => fun w0 : world => (Val false, w0)
                  end w'
              end) = download_molecule net url output_path (S r) w2).
  { intros l w2. destruct (IH l w2) as [_ (b & w' & Hv)]. rewrite Hv.
    reflexivity. }
  match goal with |- ?step /\ _ => assert (Hstep : step) end.
  { rewrite download_molecule_equation_1.
    unfold attempt_verdict, attempt_world, attempt_files, backoff_world.
    unfold try_except, bind, time_sleep, requests_get, log_event, bind,
      raise, ret.
    destruct (reply (net r)) as [[|]|resp].
    - destruct (lt_dec r MAX_RETRIES); norm_world; reflexivity.
    - norm_world; reflexivity.
    - destruct (status_code resp =? 200)%Z.
      + unfold open_wb.
        erewrite iter_content_write_spec;
          [|cbn [files]; apply lookup_insert_eq].
        norm_world. rewrite insert_insert_eq.
        destruct (ending resp) as [|[|]]; try reflexivity.
        destruct (lt_dec r MAX_RETRIES); norm_world; reflexivity.
      + destruct (lt_dec r MAX_RETRIES) as [l|]; norm_world;
          [apply (Hrec l)|reflexivity]. }
  split; [exact Hstep|]. rewrite Hstep.
  destruct (attempt_verdict (net r)); [eauto|].
  destruct (lt_dec r MAX_RETRIES) as [l|]; [|eauto].
  apply (IH l).
Qed.

Lemma download_step (net : nat -> attempt_env) (url output_path : string)
    (retries : nat) (w : world) :
  download_molecule net url output_path retries w =
    match attempt_verdict (net retries) with
    | Done b => (Val b, attempt_world (net retries) url output_path w)
    | Again =>
        if lt_dec retries MAX_RETRIES then
          download_molecule net url output_path (S retries)
            (backoff_world (net retries) retries
               (attempt_world (net retries) url output_path w))
        else (Val false, attempt_world (net retries) url output_path w)
    end.
Proof. apply download_step_value. Qed.

Lemma download_value (net : nat -> attempt_env) (url output_path : string)
    (retries : nat) (w : world) :
  exists b w', download_molecule net url output_path retries w = (Val b, w').
Proof. apply download_step_value. Qed.


Lemma count_gets_app (t1 t2 : list event) :
  count_gets (t1 ++ t2) = count_gets t1 + count_gets t2.
Proof.
  induction t1 as [|[d|u] t1 IH]; simpl; [reflexivity|exact IH|].
  rewrite IH. reflexivity.
Qed.

Lemma attempts_attempt_world a url output_path w :
  attempts (attempt_world a url output_path w) = attempts w + 1.
Proof. unfold attempts. simpl. rewrite count_gets_app. reflexivity. Qed.

Lemma attempts_backoff_world a r w :
  attempts (backoff_world a r w) = attempts w.
Proof. unfold attempts. simpl. rewrite count_gets_app. simpl. lia. Qed.

Lemma retry_trace_S net url r k :
  retry_trace net url r (S k) =
    [EvSleep (polite_delay (net r)); EvGet url;
     EvSleep (inject_Z (2 ^ Z.of_nat r) + jitter (net r))%Q]
    ++ retry_trace net url (S r) k.
Proof. reflexivity. Qed.

Lemma trace_retried net url output_path r k w :
  trace (retried net url output_path r k w) =
    trace w ++ retry_trace net url r k.
Proof.
  revert r w. induction k as [|k IH]; intros r w.
  - simpl. unfold retry_trace. simpl. rewrite app_nil_r. reflexivity.
  - cbn [retried]. rewrite IH, retry_trace_S.
    unfold backoff_world, attempt_world, backoff.
    norm_world. reflexivity.
Qed.

Lemma count_gets_retry_trace net url r k :
  count_gets (retry_trace net url r k) = k.
Proof.
  revert r. induction k as [|k IH]; intros r; [reflexivity|].
  rewrite retry_trace_S, count_gets_app, IH. reflexivity.
Qed.

Lemma attempts_retried net url output_path r k w :
  attempts (retried net url output_path r k w) = attempts w + k.
Proof.
  unfold attempts.
  rewrite trace_retried, count_gets_app, count_gets_retry_trace.
  reflexivity.
Qed.

(** [k] transient failures in a row are [k] retries. *)
Lemma download_retried net url output_path k :
  forall r w,
    (forall i, r <= i < r + k -> transient_failure (net i) = true) ->
    r + k <= MAX_RETRIES ->
    download_molecule net url output_path r w =
      download_molecule net url output_path (r + k)
        (retried net url output_path r k w).
Proof.
  induction k as [|k IH]; intros r w Hfail Hle.
  - rewrite Nat.add_0_r. reflexivity.
  - rewrite download_step.
    specialize (Hfail r ltac:(lia)) as Hr. unfold transient_failure in Hr.
    destruct (attempt_verdict (net r)); [discriminate|].
    destruct (lt_dec r MAX_RETRIES); [|lia].
    rewrite (IH (S r)); [|intros i Hi; apply Hfail; lia|lia].
    cbn [retried]. replace (S r + k) with (r + S k) by lia. reflexivity.
Qed.

(** A request is sent at least once and at most
    [MAX_RETRIES + 1 - retries] times. *)
Lemma download_attempts_bound net url output_path :
  forall r w,
    r <= MAX_RETRIES ->
    attempts w + 1
      <= attempts (snd (download_molecule net url output_path r w))
      <= attempts w + (MAX_RETRIES + 1 - r).
Proof.
  induction r as [r IH] using retries_ind. intros w Hle.
  rewrite download_step.
  destruct (attempt_verdict (net r)).
  - cbn [snd]. rewrite attempts_attempt_world. lia.
  - destruct (lt_dec r MAX_RETRIES) as [l|].
    + specialize (IH l (backoff_world (net r) r
                          (attempt_world (net r) url output_path w))
                    ltac:(lia)).
      rewrite attempts_backoff_world, attempts_attempt_world in IH. lia.
    + cbn [snd]. rewrite attempts_attempt_world. lia.
Qed.

(** Without a status 200 the disk is not touched and the call fails. *)
Lemma attempt_files_no_success a output_path fs :
  no_success_status a = true -> attempt_files a output_path fs = fs.
Proof.
  unfold no_success_status, attempt_files.
  destruct (reply a) as [e|r]; [reflexivity|].
  destruct (status_code r =? 200)%Z; [discriminate|reflexivity].
Qed.

Lemma no_success_verdict a :
  no_success_status a = true ->
  attempt_verdict a = Again \/ attempt_verdict a = Done false.
Proof.
  unfold no_success_status, attempt_verdict.
  destruct (reply a) as [[|]|r]; auto.
  destruct (status_code r =? 200)%Z; [discriminate|auto].
Qed.

Lemma download_no_success net url output_path :
  forall r w,
    (forall i, r <= i -> no_success_status (net i) = true) ->
    fst (download_molecule net url output_path r w) = Val false
    /\ files (snd (download_molecule net url output_path r w)) = files w.
Proof.
  induction r as [r IH] using retries_ind. intros w Hno.
  rewrite download_step.
  pose proof (Hno r ltac:(lia)) as Hr.
  destruct (no_success_verdict _ Hr) as [-> | ->].
  - destruct (lt_dec r MAX_RETRIES) as [l|].
    + destruct (IH l (backoff_world (net r) r
                        (attempt_world (net r) url output_path w)))
        as [Hv Hf]; [intros i Hi; apply Hno; lia|].
      split; [exact Hv|]. rewrite Hf. cbn [backoff_world attempt_world files].
      apply attempt_files_no_success, Hr.
    + split; [reflexivity|]. cbn [snd attempt_world files].
      apply attempt_files_no_success, Hr.
  - split; [reflexivity|]. cbn [snd attempt_world files].
    apply attempt_files_no_success, Hr.
Qed.

(** ** What process_link_file does *)

Lemma process_link_file_spec net file_path w :
  process_link_file net file_path w =
    match link_url file_path w with
    | None => (Val (ospath.basename file_path, false), w)
    | Some url =>
        if String.eqb url EmptyString then (Val (compound_id_of file_path, false), w)
        else
          match download_molecule net url (output_path_of file_path) 0 w with
          | (Val success, w1) =>
              (Val (compound_id_of file_path,
                    fst (validated (output_path_of file_path) success w1)),
               snd (validated (output_path_of file_path) success w1))
          | (Exc _, w1) => (Val (ospath.basename file_path, false), w1)
          end
    end.
Proof.
  unfold process_link_file, link_url, try_except, read_text.
  unfold bind at 1.
  destruct (files w !! file_path) as [content|]; [|reflexivity].
  fold (compound_id_of file_path). fold (output_path_of file_path).
  destruct (String.eqb _ EmptyString); [reflexivity|].
  unfold bind at 1.
  destruct (download_molecule _ _ _ 0 w) as [[success|e] w1]; [|reflexivity].
  unfold validated, and_then, os_path_exists, os_path_getsize, os_remove,
    bind, ret.
  destruct (files w1 !! output_path_of file_path) as [[|b l]|] eqn:Hout.
  all: destruct success;
    repeat first
      [ progress cbn [length Nat.ltb Nat.leb Nat.eqb fst snd]
      | rewrite Hout
      | rewrite bool_decide_eq_true_2 by eauto
      | rewrite bool_decide_eq_false_2 by (intros [? ?]; discriminate) ];
    reflexivity.
Qed.

Lemma process_link_file_attempted net file_path w url success w1 :
  link_url file_path w = Some url ->
  url <> EmptyString ->
  download_molecule net url (output_path_of file_path) 0 w
    = (Val success, w1) ->
  process_link_file net file_path w =
    (Val (compound_id_of file_path,
          fst (validated (output_path_of file_path) success w1)),
     snd (validated (output_path_of file_path) success w1)).
Proof.
  intros Hurl Hne Hdl. rewrite process_link_file_spec, Hurl.
  apply String.eqb_neq in Hne. rewrite Hne, Hdl. reflexivity.
Qed.

Lemma download_succeeds_at net url output_path k resp w :
  k <= MAX_RETRIES ->
  succeeds_at net k resp ->
  download_molecule net url output_path 0 w =
    (Val true,
     World (<[output_path := concat (chunks resp)]>
              (files (retried net url output_path 0 k w)))
           (trace w ++ retry_trace net url 0 k
              ++ [EvSleep (polite_delay (net k)); EvGet url])).
Proof.
  intros Hk (Hfail & Hreply & Hstatus & Hend).
  rewrite (download_retried net url output_path k 0 w);
    [|intros i Hi; apply Hfail; lia|lia].
  rewrite download_step. cbn [Nat.add].
  unfold attempt_verdict, attempt_world, attempt_files.
  rewrite Hreply, Hstatus, Hend. cbn [Z.eqb Pos.eqb].
  rewrite trace_retried, <- app_assoc. reflexivity.
Qed.

(** ** Errors stay inside the item *)




(** ** The retry bound *)

(** C2: when every attempt fails (a status other than 200 or a
    network-level error), download_molecule sends exactly
    MAX_RETRIES + 1 = 4 requests and returns False; whatever happens, it
    never sends more than MAX_RETRIES + 1 requests. *)
Theorem retries_exhausted net url output_path w :
  (forall i, i <= MAX_RETRIES -> transient_failure (net i) = true) ->
  MAX_RETRIES = 3
  /\ fst (download_molecule net url output_path 0 w) = Val false
  /\ attempts (snd (download_molecule net url output_path 0 w))
     = attempts w + (MAX_RETRIES + 1)
  /\ (forall net' w',
        attempts (snd (download_molecule net' url output_path 0 w'))
          <= attempts w' + (MAX_RETRIES + 1)).
Proof.
  intros Hfail. split; [reflexivity|].
  rewrite (download_retried net url output_path MAX_RETRIES 0 w);
    [|intros i Hi; apply Hfail; lia|lia].
  cbn [Nat.add]. rewrite download_step.
  specialize (Hfail MAX_RETRIES ltac:(lia)). unfold transient_failure in Hfail.
  destruct (attempt_verdict (net MAX_RETRIES)); [discriminate|].
  destruct (lt_dec MAX_RETRIES MAX_RETRIES); [lia|].
  cbn [fst snd]. rewrite attempts_attempt_world, attempts_retried.
  split; [reflexivity|]. split; [lia|].
  intros net' w'.
  pose proof (download_attempts_bound net' url output_path 0 w') as Hb.
  rewrite Nat.sub_0_r in Hb. apply Hb. lia.
Qed.

Lemma retries_exhausted_witness :
  fst (download_molecule (Scenario.always Scenario.not_found)
         Scenario.url Scenario.destination 0 Scenario.fresh) = Val false
  /\ attempts (snd (download_molecule (Scenario.always Scenario.not_found)
                      Scenario.url Scenario.destination 0 Scenario.fresh))
     = 4.
Proof.
  destruct (retries_exhausted (Scenario.always Scenario.not_found)
              Scenario.url Scenario.destination Scenario.fresh)
    as (_ & Hv & Ha & _).
  - intros i _. reflexivity.
  - split; [exact Hv|exact Ha].
Defined.

(** ** A status 404 is retried *)

(** C4, as the code has it: a status other than 200, 404 included, is
    handled like a network error.  While retries < MAX_RETRIES the call
    waits the backoff delay and attempts again; it returns False without a
    further attempt only once retries has reached MAX_RETRIES. *)
Theorem not_found_is_retried net url output_path retries w resp :
  reply (net retries) = Responded resp ->
  status_code resp <> 200%Z ->
  (retries < MAX_RETRIES ->
   download_molecule net url output_path retries w =
     download_molecule net url output_path (S retries)
       (World (files w)
          (trace w ++ [EvSleep (polite_delay (net retries)); EvGet url;
                       EvSleep (inject_Z (2 ^ Z.of_nat retries)
                                + jitter (net retries))%Q])))
  /\ (MAX_RETRIES <= retries ->
      download_molecule net url output_path retries w =
        (Val false,
         World (files w)
           (trace w ++ [EvSleep (polite_delay (net retries)); EvGet url]))).
Proof.
  intros Hreply Hstatus. apply Z.eqb_neq in Hstatus.
  rewrite download_step.
  unfold attempt_verdict, attempt_world, attempt_files, backoff_world, backoff.
  rewrite Hreply, Hstatus.
  split; intros Hr; (destruct (lt_dec retries MAX_RETRIES); [|]); try lia;
    norm_world; reflexivity.
Qed.

Lemma not_found_is_retried_witness :
  download_molecule Scenario.not_found_then_ok
    Scenario.url Scenario.destination 0 Scenario.fresh
  = download_molecule Scenario.not_found_then_ok
      Scenario.url Scenario.destination 1
      (World (files Scenario.fresh)
         [EvSleep 1; EvGet Scenario.url; EvSleep (inject_Z 1 + (1 # 4))%Q]).
Proof.
  destruct (not_found_is_retried Scenario.not_found_then_ok
              Scenario.url Scenario.destination 0 Scenario.fresh
              (Response 404 [] StreamComplete))
    as [Hretry _].
  - reflexivity.
  - discriminate.
  - apply Hretry. unfold MAX_RETRIES. lia.
Defined.

(** C4, as stated, fails: after a first reply with status 404 the call
    waits, sends a second request and, the second reply being a complete
    200, returns True. *)
Lemma not_found_is_terminal_counterexample :
  reply (Scenario.not_found_then_ok 0)
    = Responded (Response 404 [] StreamComplete)
  /\ fst (download_molecule Scenario.not_found_then_ok Scenario.url
            Scenario.destination 0 Scenario.fresh) = Val true
  /\ attempts (snd (download_molecule Scenario.not_found_then_ok Scenario.url
                      Scenario.destination 0 Scenario.fresh)) = 2
  /\ ~ (fst (download_molecule Scenario.not_found_then_ok Scenario.url
               Scenario.destination 0 Scenario.fresh) = Val false
        /\ attempts (snd (download_molecule Scenario.not_found_then_ok
                            Scenario.url Scenario.destination 0
                            Scenario.fresh)) = 1).
Proof.
  vm_compute. repeat split. intros [H _]. discriminate H.
Qed.

(** ** Success on the first attempt *)

(** C8: when the first reply is a complete response with status 200 and a
    non-empty body, the fetch reports success after one request and no
    backoff wait, and the destination holds exactly the bytes received. *)
Theorem first_attempt_success net file_path w url resp :
  link_url file_path w = Some url ->
  url <> EmptyString ->
  reply (net 0) = Responded resp ->
  status_code resp = 200%Z ->
  ending resp = StreamComplete ->
  concat (chunks resp) <> [] ->
  exists w',
    process_link_file net file_path w
      = (Val (compound_id_of file_path, true), w')
    /\ trace w' = trace w ++ [EvSleep (polite_delay (net 0)); EvGet url]
    /\ attempts w' = attempts w + 1
    /\ files w' = <[output_path_of file_path := concat (chunks resp)]> (files w)
    /\ (exists content,
          files w' !! output_path_of file_path = Some content
          /\ length content = length (concat (chunks resp))).
Proof.
  intros Hurl Hne Hreply Hstatus Hend Hbody.
  pose proof (download_succeeds_at net url (output_path_of file_path) 0 resp w
                ltac:(lia)) as Hdl.
  rewrite app_nil_l in Hdl. cbn [retried] in Hdl.
  specialize (Hdl ltac:(repeat split; [intros i Hi; lia|assumption..])).
  rewrite (process_link_file_attempted _ _ _ _ _ _ Hurl Hne Hdl).
  unfold validated. cbn [files]. rewrite lookup_insert_eq.
  destruct (concat (chunks resp)) as [|b l] eqn:Hc; [congruence|].
  eexists. cbn [fst snd trace files].
  split; [reflexivity|]. split; [reflexivity|].
  split; [unfold attempts; cbn [trace]; rewrite count_gets_app; reflexivity|].
  split; [reflexivity|].
  exists (b :: l). split; [apply lookup_insert_eq|reflexivity].
Qed.

Lemma first_attempt_success_witness :
  exists w',
    process_link_file (Scenario.always (Scenario.ok Scenario.body))
      Scenario.link_file Scenario.fresh = (Val ("id1", true), w')
    /\ attempts w' = 1
    /\ exists content,
         files w' !! Scenario.destination = Some content
         /\ length content = 3.
Proof.
  destruct (first_attempt_success (Scenario.always (Scenario.ok Scenario.body))
              Scenario.link_file Scenario.fresh Scenario.url
              (Response 200 Scenario.body StreamComplete))
    as (w' & Hp & _ & Ha & _ & Hc).
  - reflexivity.
  - discriminate.
  - reflexivity.
  - reflexivity.
  - reflexivity.
  - discriminate.
  - exists w'. split; [exact Hp|]. split; [exact Ha|exact Hc].
Defined.

(** ** A zero-byte body *)

(** C7: when the reply that ends the retries is a complete response with
    status 200 and a zero-byte body, the fetch reports failure, it sends
    no further request, the task is counted as failed, and no file is
    left at the destination. *)
Theorem empty_body_is_failure net file_path w url k resp :
  link_url file_path w = Some url ->
  url <> EmptyString ->
  k <= MAX_RETRIES ->
  succeeds_at net k resp ->
  concat (chunks resp) = [] ->
  exists w',
    process_link_file net file_path w
      = (Val (compound_id_of file_path, false), w')
    /\ files w' !! output_path_of file_path = None
    /\ attempts w' = attempts w + k + 1
    /\ (forall t,
          failed_downloads (collect t (Val (compound_id_of file_path, false)))
            = failed_downloads t + 1
          /\ successful_downloads
               (collect t (Val (compound_id_of file_path, false)))
             = successful_downloads t).
Proof.
  intros Hurl Hne Hk Hok Hbody.
  pose proof (download_succeeds_at net url (output_path_of file_path) k resp w
                Hk Hok) as Hdl.
  eexists. rewrite (process_link_file_attempted _ _ _ _ _ _ Hurl Hne Hdl).
  unfold validated. cbn [files]. rewrite lookup_insert_eq, Hbody.
  cbn [fst snd files trace].
  split; [reflexivity|]. split; [apply lookup_delete_eq|].
  split; [|intros t; split; reflexivity].
  unfold attempts. cbn [trace].
  rewrite !count_gets_app, count_gets_retry_trace. cbn. lia.
Qed.

Lemma empty_body_is_failure_witness :
  exists w',
    process_link_file (Scenario.after 1 Scenario.timeout (Scenario.ok [[]]))
      Scenario.link_file Scenario.rerun = (Val ("id1", false), w')
    /\ files w' !! Scenario.destination = None
    /\ attempts w' = 2.
Proof.
  destruct (empty_body_is_failure
              (Scenario.after 1 Scenario.timeout (Scenario.ok [[]]))
              Scenario.link_file Scenario.rerun Scenario.url 1
              (Response 200 [[]] StreamComplete))
    as (w' & Hp & Hf & Ha & _).
  - reflexivity.
  - discriminate.
  - unfold MAX_RETRIES. lia.
  - repeat split. intros [|i] Hi; [reflexivity|lia].
  - reflexivity.
  - exists w'. split; [exact Hp|]. split; [exact Hf|exact Ha].
Defined.

(** ** The artifact and the outcome *)

Lemma download_uninterrupted net url output_path :
  forall r w,
    (forall i, r <= i -> interrupted (net i) = false) ->
    (fst (download_molecule net url output_path r w) = Val false
     /\ files (snd (download_molecule net url output_path r w)) = files w)
    \/ (fst (download_molecule net url output_path r w) = Val true
        /\ exists body,
             files (snd (download_molecule net url output_path r w))
               = <[output_path := body]> (files w)).
Proof.
  induction r as [r IH] using retries_ind. intros w Hun.
  rewrite download_step.
  pose proof (Hun r ltac:(lia)) as Hr.
  unfold interrupted in Hr.
  unfold attempt_verdict, attempt_world, attempt_files.
  assert (Hnext : forall fs t, r < MAX_RETRIES ->
            (fst (download_molecule net url output_path (S r) (World fs t))
               = Val false
             /\ files (snd (download_molecule net url output_path (S r)
                              (World fs t))) = fs)
            \/ (fst (download_molecule net url output_path (S r) (World fs t))
                  = Val true
                /\ exists body,
                     files (snd (download_molecule net url output_path (S r)
                                   (World fs t)))
                       = <[output_path := body]> fs)).
  { intros fs t l. apply (IH l (World fs t)). intros i Hi. apply Hun. lia. }
  destruct (reply (net r)) as [[|]|resp].
  - destruct (lt_dec r MAX_RETRIES) as [l|]; [apply (Hnext _ _ l)|].
    left. split; reflexivity.
  - left. split; reflexivity.
  - destruct (status_code resp =? 200)%Z.
    + destruct (ending resp); [|discriminate].
      right. split; [reflexivity|]. eexists. reflexivity.
    + destruct (lt_dec r MAX_RETRIES) as [l|]; [apply (Hnext _ _ l)|].
      left. split; reflexivity.
Qed.

(** C1, as the code has it.  For a fetch that is attempted (the link file
    holds a URL): a reported success means a non-empty file at the
    destination; whatever the outcome, no zero-byte file is left there;
    and when the destination was absent before and no transfer with
    status 200 was interrupted, a file exists afterwards exactly when the
    outcome is a success.  Nothing is said of a non-empty file that an
    earlier run or an interrupted transfer left. *)
Theorem artifact_after_fetch net file_path w url :
  link_url file_path w = Some url ->
  url <> EmptyString ->
  exists b w',
    process_link_file net file_path w
      = (Val (compound_id_of file_path, b), w')
    /\ (b = true ->
        exists content,
          files w' !! output_path_of file_path = Some content
          /\ 0 < length content)
    /\ files w' !! output_path_of file_path <> Some []
    /\ (files w !! output_path_of file_path = None ->
        (forall i, interrupted (net i) = false) ->
        (is_Some (files w' !! output_path_of file_path) <-> b = true)).
Proof.
  intros Hurl Hne.
  destruct (download_value net url (output_path_of file_path) 0 w)
    as (success & w1 & Hdl).
  rewrite (process_link_file_attempted _ _ _ _ _ _ Hurl Hne Hdl).
  pose proof (download_uninterrupted net url (output_path_of file_path) 0 w)
    as Hun.
  rewrite Hdl in Hun. cbn [fst snd] in Hun.
  unfold validated.
  destruct (files w1 !! output_path_of file_path) as [[|x l]|] eqn:H1;
    cbn [fst snd]; eexists _, _; (split; [reflexivity|]); cbn [files].
  - rewrite lookup_delete_eq. split; [discriminate|]. split; [discriminate|].
    intros _ _. split; [intros [? ?]; discriminate|discriminate].
  - rewrite H1. split; [intros _; exists (x :: l); split; [reflexivity|cbn; lia]|].
    split; [discriminate|]. intros Habs Hall.
    destruct (Hun ltac:(intros i _; apply Hall)) as [[Hv Hf]|[Hv _]].
    + rewrite Hf in H1. congruence.
    + split; [intros _; congruence|eauto].
  - rewrite H1. split; [discriminate|]. split; [discriminate|].
    intros _ _. split; [intros [? ?]; discriminate|discriminate].
Qed.

Lemma artifact_after_fetch_witness :
  exists b w',
    process_link_file (Scenario.always Scenario.not_found)
      Scenario.link_file Scenario.fresh = (Val ("id1", b), w')
    /\ files w' !! Scenario.destination <> Some []
    /\ (is_Some (files w' !! Scenario.destination) <-> b = true).
Proof.
  destruct (artifact_after_fetch (Scenario.always Scenario.not_found)
              Scenario.link_file Scenario.fresh Scenario.url)
    as (b & w' & Hp & _ & Hz & Hiff).
  - reflexivity.
  - discriminate.
  - exists b, w'. split; [exact Hp|]. split; [exact Hz|].
    apply Hiff; [reflexivity|intros i; reflexivity].
Defined.

(** C1, as stated, fails.  On a disk without artifact, four transfers with
    status 200 whose connection drops after two bytes end in failure and
    leave the two bytes at the destination; on a disk with an artifact of
    an earlier run, four replies 404 end in failure and the artifact is
    still there. *)
Lemma artifact_iff_success_counterexample :
  (fst (process_link_file (Scenario.always Scenario.cut_off)
          Scenario.link_file Scenario.fresh) = Val ("id1", false)
   /\ files (snd (process_link_file (Scenario.always Scenario.cut_off)
                    Scenario.link_file Scenario.fresh))
        !! Scenario.destination = Some (Scenario.bytes "AB"))
  /\ (fst (process_link_file (Scenario.always Scenario.not_found)
             Scenario.link_file Scenario.rerun) = Val ("id1", false)
      /\ files (snd (process_link_file (Scenario.always Scenario.not_found)
                       Scenario.link_file Scenario.rerun))
           !! Scenario.destination = Some (Scenario.bytes "ABC"))
  /\ ~ (is_Some (files (snd (process_link_file
                               (Scenario.always Scenario.cut_off)
                               Scenario.link_file Scenario.fresh))
                   !! Scenario.destination)
        <-> fst (process_link_file (Scenario.always Scenario.cut_off)
                   Scenario.link_file Scenario.fresh) = Val ("id1", true)).
Proof.
  assert (H1 : process_link_file (Scenario.always Scenario.cut_off)
                 Scenario.link_file Scenario.fresh
               = (Val ("id1", false),
                  World (<[Scenario.destination := Scenario.bytes "AB"]>
                           (files Scenario.fresh))
                    (trace (snd (process_link_file
                                   (Scenario.always Scenario.cut_off)
                                   Scenario.link_file Scenario.fresh))))).
  { vm_compute. reflexivity. }
  assert (H2 : process_link_file (Scenario.always Scenario.not_found)
                 Scenario.link_file Scenario.rerun
               = (Val ("id1", false),
                  World (files Scenario.rerun)
                    (trace (snd (process_link_file
                                   (Scenario.always Scenario.not_found)
                                   Scenario.link_file Scenario.rerun))))).
  { vm_compute. reflexivity. }
  rewrite H1, H2. cbn [fst snd files].
  split; [split; [reflexivity|apply lookup_insert_eq]|].
  split; [split; [reflexivity|apply lookup_insert_eq]|].
  rewrite lookup_insert_eq. intros [Hl _].
  specialize (Hl ltac:(eauto)). discriminate Hl.
Qed.

(** ** Running again over an existing artifact *)

(** C9: when the destination already holds a non-empty artifact and the
    fetch either ends with a complete response with status 200 carrying
    the same bytes, or never receives a status 200, the destination holds
    the same bytes afterwards. *)
Theorem rerun_keeps_artifact net file_path w content :
  files w !! output_path_of file_path = Some content ->
  content <> [] ->
  (exists k resp,
     k <= MAX_RETRIES /\ succeeds_at net k resp
     /\ concat (chunks resp) = content)
  \/ (forall i, no_success_status (net i) = true) ->
  files (snd (process_link_file net file_path w))
    !! output_path_of file_path = Some content.
Proof.
  intros Hprior Hne Hcase. rewrite process_link_file_spec.
  destruct (link_url file_path w) as [url|]; [|exact Hprior].
  destruct (String.eqb url EmptyString); [exact Hprior|].
  destruct (download_value net url (output_path_of file_path) 0 w)
    as (success & w1 & Hdl).
  rewrite Hdl. cbn [snd]. unfold validated.
  assert (H1 : files w1 !! output_path_of file_path = Some content).
  { destruct Hcase as [(k & resp & Hk & Hok & Hsame)|Hno].
    - rewrite (download_succeeds_at _ _ _ _ _ _ Hk Hok) in Hdl.
      injection Hdl as _ <-. cbn [files]. rewrite Hsame.
      apply lookup_insert_eq.
    - destruct (download_no_success net url (output_path_of file_path) 0 w)
        as [_ Hf]; [intros i _; apply Hno|].
      rewrite Hdl in Hf. cbn [snd] in Hf. rewrite Hf. exact Hprior. }
  rewrite H1. destruct content as [|x l]; [congruence|]. exact H1.
Qed.

Lemma rerun_keeps_artifact_witness :
  files (snd (process_link_file (Scenario.always Scenario.not_found)
                Scenario.link_file Scenario.rerun))
    !! Scenario.destination = Some (Scenario.bytes "ABC")
  /\ files (snd (process_link_file Scenario.not_found_then_ok
                   Scenario.link_file Scenario.rerun))
       !! Scenario.destination = Some (Scenario.bytes "ABC").
Proof.
  split.
  - apply (rerun_keeps_artifact (Scenario.always Scenario.not_found)
             Scenario.link_file Scenario.rerun (Scenario.bytes "ABC")).
    + reflexivity.
    + discriminate.
    + right. intros i. reflexivity.
  - apply (rerun_keeps_artifact Scenario.not_found_then_ok
             Scenario.link_file Scenario.rerun (Scenario.bytes "ABC")).
    + reflexivity.
    + discriminate.
    + left. exists 1, (Response 200 Scenario.body StreamComplete).
      split; [unfold MAX_RETRIES; lia|]. split; [|reflexivity].
      repeat split. intros [|i] Hi; [reflexivity|lia].
Defined.

(** ** Backoff *)

Lemma total_sleep_app (t1 t2 : list event) :
  (total_sleep (t1 ++ t2) == total_sleep t1 + total_sleep t2)%Q.
Proof.
  induction t1 as [|[d|u] t1 IH]; cbn [app total_sleep].
  - lra.
  - lra.
  - exact IH.
Qed.

Lemma polite_delay_nonneg a : random_ok a -> (0 <= polite_delay a)%Q.
Proof.
  unfold random_ok, REQUEST_DELAY. cbn [fst snd]. intros (Hlo & _). lra.
Qed.

Lemma sum_backoff_le_total_sleep net url k :
  forall r,
    (forall i, random_ok (net i)) ->
    (sum_backoff net r k <= total_sleep (retry_trace net url r k))%Q.
Proof.
  induction k as [|k IH]; intros r Hok.
  - cbn. lra.
  - rewrite retry_trace_S. cbn [sum_backoff app total_sleep].
    specialize (IH (S r) Hok).
    pose proof (polite_delay_nonneg _ (Hok r)).
    unfold backoff in *. lra.
Qed.

(** C6: the wait before a retry is 2 ^ i + jitter, where i is the value of
    [retries] in the attempt that failed (0 for the first) and jitter is
    the number drawn in [0, 1).  A fetch whose first k < MAX_RETRIES
    attempts fail transiently and whose next reply is a complete response
    with status 200 and a non-empty body reports success after k + 1
    requests, and the time slept is at least the sum of the k backoff
    delays. *)
Theorem success_after_transient_failures net file_path w url k resp :
  link_url file_path w = Some url ->
  url <> EmptyString ->
  k < MAX_RETRIES ->
  succeeds_at net k resp ->
  concat (chunks resp) <> [] ->
  (forall i, random_ok (net i)) ->
  exists w',
    process_link_file net file_path w
      = (Val (compound_id_of file_path, true), w')
    /\ trace w' =
         trace w
         ++ flat_map
              (fun i =>
                 [EvSleep (polite_delay (net i)); EvGet url;
                  EvSleep (inject_Z (2 ^ Z.of_nat i) + jitter (net i))%Q])
              (seq 0 k)
         ++ [EvSleep (polite_delay (net k)); EvGet url]
    /\ attempts w' = attempts w + (k + 1)
    /\ (forall i, i < k ->
          (inject_Z (2 ^ Z.of_nat i) <= backoff (net i) i
           /\ backoff (net i) i < inject_Z (2 ^ Z.of_nat i) + 1)%Q)
    /\ (total_sleep (trace w) + sum_backoff net 0 k
          <= total_sleep (trace w'))%Q.
Proof.
  intros Hurl Hne Hk Hok Hbody Hrand.
  pose proof (download_succeeds_at net url (output_path_of file_path) k resp w
                ltac:(lia) Hok) as Hdl.
  rewrite (process_link_file_attempted _ _ _ _ _ _ Hurl Hne Hdl).
  unfold validated. cbn [files]. rewrite lookup_insert_eq.
  destruct (concat (chunks resp)) as [|b l]; [congruence|].
  eexists. cbn [fst snd trace].
  split; [reflexivity|]. split; [reflexivity|].
  split.
  { unfold attempts. cbn [trace].
    rewrite !count_gets_app, count_gets_retry_trace. cbn. lia. }
  split.
  { intros i _. destruct (Hrand i) as (_ & _ & Hj0 & Hj1).
    unfold backoff. split; lra. }
  pose proof (total_sleep_app (trace w)
                (retry_trace net url 0 k
                 ++ [EvSleep (polite_delay (net k)); EvGet url])) as H1.
  pose proof (total_sleep_app (retry_trace net url 0 k)
                [EvSleep (polite_delay (net k)); EvGet url]) as H2.
  pose proof (sum_backoff_le_total_sleep net url k 0 Hrand).
  pose proof (polite_delay_nonneg _ (Hrand k)).
  cbn [total_sleep] in H2. cbn [trace].
  set (X := total_sleep (trace w ++ _)) in *.
  set (Y := total_sleep (retry_trace net url 0 k ++ _)) in *.
  set (T := total_sleep (retry_trace net url 0 k)) in *.
  set (A := total_sleep (trace w)) in *.
  set (S := sum_backoff net 0 k) in *.
  set (pk := polite_delay (net k)) in *.
  clearbody X Y T A S pk. clear - H1 H2 H H0. lra.
Qed.

Lemma success_after_transient_failures_witness :
  exists w',
    process_link_file (Scenario.after 2 Scenario.timeout (Scenario.ok Scenario.body))
      Scenario.link_file Scenario.fresh = (Val ("id1", true), w')
    /\ trace w' =
         [EvSleep 2; EvGet Scenario.url; EvSleep (inject_Z 1 + (3 # 4))%Q;
          EvSleep 2; EvGet Scenario.url; EvSleep (inject_Z 2 + (3 # 4))%Q;
          EvSleep (1 # 2); EvGet Scenario.url]
    /\ attempts w' = 3.
Proof.
  destruct (success_after_transient_failures
              (Scenario.after 2 Scenario.timeout (Scenario.ok Scenario.body))
              Scenario.link_file Scenario.fresh Scenario.url 2
              (Response 200 Scenario.body StreamComplete))
    as (w' & Hp & Ht & Ha & _).
  - reflexivity.
  - discriminate.
  - unfold MAX_RETRIES. lia.
  - repeat split. intros [|[|i]] Hi; [reflexivity|reflexivity|lia].
  - discriminate.
  - intros i. unfold Scenario.after.
    destruct (i <? 2)%nat; unfold random_ok; cbn; unfold Qle, Qlt; cbn; lia.
  - exists w'. split; [exact Hp|]. split; [exact Ht|exact Ha].
Defined.

(** ** What main does *)

Lemma gather_link_files_spec names w :
  gather_link_files names w = (Val (link_files_of names w), w).
Proof.
  induction names as [|f rest IH]; [reflexivity|].
  cbn [gather_link_files link_files_of].
  unfold and_then, bind, ret, os_path_isfile.
  destruct (endswith f ".txt"); cbn [andb]; [|rewrite IH; reflexivity].
  destruct (bool_decide _); rewrite IH; reflexivity.
Qed.

Lemma process_link_file_outcome net file_path w :
  exists fut w',
    process_link_file net file_path w = (fut, w')
    /\ outcome_for file_path fut.
Proof.
  rewrite process_link_file_spec. unfold outcome_for.
  destruct (link_url file_path w) as [url|]; [|eauto 10].
  destruct (String.eqb url EmptyString); [eauto 10|].
  destruct (download_value net url (output_path_of file_path) 0 w)
    as (success & w1 & ->).
  eauto 10.
Qed.

Lemma submit_all_outcomes env link_files :
  forall w, exists futs w',
    submit_all env link_files w = (Val futs, w')
    /\ Forall2 outcome_for link_files futs.
Proof.
  induction link_files as [|file_path rest IH]; intros w.
  - exists [], w. split; [reflexivity|constructor].
  - cbn [submit_all]. unfold bind at 1. unfold submit at 1.
    destruct (process_link_file_outcome (net_of env file_path) file_path w)
      as (fut & w1 & Hp & Hfut).
    rewrite Hp. unfold bind at 1.
    destruct (IH w1) as (futs & w2 & Hs & Hall). rewrite Hs.
    exists (fut :: futs), w2. split; [reflexivity|].
    constructor; assumption.
Qed.

Lemma map_snd_imap {A B : Type} (g : nat -> A) (l : list B) :
  map snd (imap (fun i x => (g i, x)) l) = l.
Proof.
  revert g. induction l as [|x l IH]; intros g; [reflexivity|].
  cbn. f_equal. apply (IH (g ∘ S)).
Qed.

Lemma as_completed_Permutation env futs : as_completed env futs ≡ₚ futs.
Proof.
  unfold as_completed.
  rewrite <- (map_snd_imap (finish_time env) futs) at 2.
  apply Permutation_map, merge_sort_Permutation.
Qed.

Lemma count_succeeded_Permutation l1 l2 :
  l1 ≡ₚ l2 -> count_succeeded l1 = count_succeeded l2.
Proof.
  induction 1; cbn [count_succeeded]; lia.
Qed.

Lemma count_succeeded_le futs : count_succeeded futs <= length futs.
Proof.
  induction futs as [|fut rest IH]; cbn [count_succeeded length]; [lia|].
  destruct (succeeded fut); lia.
Qed.

Lemma fold_collect futs :
  forall t,
    fold_left collect futs t =
      Tally (successful_downloads t + count_succeeded futs)
            (failed_downloads t + (length futs - count_succeeded futs))
            (pbar t + length futs).
Proof.
  induction futs as [|fut rest IH]; intros [s f p].
  - cbn. f_equal; lia.
  - cbn [fold_left]. rewrite IH.
    pose proof (count_succeeded_le rest).
    destruct fut as [[id [|]]|e]; cbn; f_equal; lia.
Qed.

Lemma main_spec env w :
  main env w =
    match listdir env with
    | None => (Val tt, w)
    | Some names =>
        if (length (link_files_of names w) =? 0)%nat then (Val tt, w)
        else
          match submit_all env (link_files_of names w) w with
          | (Val futs, w1) =>
              (Val tt,
               World
                 (<[summary_path :=
                      list_byte_of_string
                        (summary_text (length (link_files_of names w))
                           (successful_downloads
                              (fold_left collect (as_completed env futs)
                                 (Tally 0 0 0)))
                           (failed_downloads
                              (fold_left collect (as_completed env futs)
                                 (Tally 0 0 0))))]> (files w1))
                 (trace w1))
          | (Exc e, w1) => (Exc e, w1)
          end
    end.
Proof.
  unfold main, os_listdir. unfold bind at 1. unfold try_except at 1.
  destruct (listdir env) as [names|]; [|reflexivity].
  unfold bind at 1. unfold ret at 1. unfold bind at 1.
  rewrite gather_link_files_spec. unfold ret at 1.
  destruct (length (link_files_of names w) =? 0)%nat; [reflexivity|].
  unfold bind at 1.
  destruct (submit_all env (link_files_of names w) w) as [[futs|e] w1];
    reflexivity.
Qed.




(** C10: when the listing of the links directory fails, or succeeds but
    holds no link file, main returns at once: no task is run and the disk
    is as before, so that no summary file is written. *)
Theorem no_link_files_no_summary env w :
  listdir env = None
  \/ (exists names, listdir env = Some names /\ link_files_of names w = []) ->
  main env w = (Val tt, w)
  /\ attempts (snd (main env w)) = attempts w
  /\ files (snd (main env w)) !! summary_path = files w !! summary_path.
Proof.
  intros Hcase.
  assert (H : main env w = (Val tt, w)).
  { rewrite main_spec.
    destruct Hcase as [->|(names & -> & ->)]; reflexivity. }
  rewrite H. repeat split.
Qed.

Lemma no_link_files_no_summary_witness :
  (main Scenario.no_links Scenario.bare = (Val tt, Scenario.bare)
   /\ files (snd (main Scenario.no_links Scenario.bare)) !! summary_path
      = None)
  /\ (main Scenario.unreadable Scenario.fresh = (Val tt, Scenario.fresh)
      /\ files (snd (main Scenario.unreadable Scenario.fresh)) !! summary_path
         = None).
Proof.
  split.
  - destruct (no_link_files_no_summary Scenario.no_links Scenario.bare)
      as (Hm & _ & Hf).
    + right. exists ["readme.md"]. split; reflexivity.
    + split; [exact Hm|]. rewrite Hf. reflexivity.
  - destruct (no_link_files_no_summary Scenario.unreadable Scenario.fresh)
      as (Hm & _ & Hf).
    + left. reflexivity.
    + split; [exact Hm|]. rewrite Hf. reflexivity.
Defined.

(** * Further properties of the code *)

(** ** Paths and identifiers *)

Lemma has_char_app p a b :
  ospath.has_char p (a +:+ b) = ospath.has_char p a || ospath.has_char p b.
Proof.
  induction a as [|c a IH]; [reflexivity|].
  simpl. rewrite IH. apply orb_assoc.
Qed.

Lemma after_last_sep_no_sep s :
  ospath.has_char ospath.is_sep s = false -> ospath.after_last_sep s = s.
Proof.
  destruct s as [|c s]; [reflexivity|]. cbn.
  intros H. apply orb_false_iff in H as [Hc Hs]. rewrite Hs, Hc. reflexivity.
Qed.

Lemma after_last_sep_join pre name :
  ospath.has_char ospath.is_sep name = false ->
  ospath.after_last_sep (pre +:+ "\" +:+ name) = name.
Proof.
  intros Hname. induction pre as [|c pre IH].
  - change (("" +:+ "\" +:+ name)) with (String "\" name).
    cbn [ospath.after_last_sep]. rewrite Hname. reflexivity.
  - simpl. rewrite has_char_app. simpl. rewrite orb_true_r. exact IH.
Qed.

Lemma splitdrive_rest_cases p :
  ospath.splitdrive_rest p = p
  \/ exists a rest,
       p = String a (String ":" rest) /\ ospath.splitdrive_rest p = rest.
Proof.
  destruct p as [|a [|b rest]]; [left; reflexivity..|].
  destruct (Ascii.eqb_spec b ":") as [->|Hb].
  - right. exists a, rest. split; reflexivity.
  - left. destruct b as [[] [] [] [] [] [] [] []]; try reflexivity.
    congruence.
Qed.

Lemma basename_join directory name :
  ospath.has_char ospath.is_sep name = false ->
  ospath.has_char is_colon name = false ->
  ospath.basename (ospath.join directory name) = name.
Proof.
  intros Hsep Hcolon. unfold ospath.basename, ospath.join.
  destruct (splitdrive_rest_cases (directory +:+ "\" +:+ name))
    as [->|(a & rest & Heq & ->)].
  - apply after_last_sep_join, Hsep.
  - destruct directory as [|d0 [|d1 directory]].
    + change (String "\" name = String a (String ":" rest)) in Heq.
      injection Heq as _ ->. simpl in Hcolon. discriminate.
    + change (String d0 (String "\" name) = String a (String ":" rest))
        in Heq.
      injection Heq as _ Heq. discriminate.
    + change (String d0 (String d1 (directory +:+ "\" +:+ name))
              = String a (String ":" rest)) in Heq.
      injection Heq as _ _ <-. apply after_last_sep_join, Hsep.
Qed.

Lemma before_last_dot_app s t :
  ospath.has_char ospath.is_dot t = false ->
  ospath.before_last_dot (s +:+ "." +:+ t) = s.
Proof.
  intros Ht. induction s as [|c s IH].
  - change (("" +:+ "." +:+ t)) with (String "." t).
    cbn [ospath.before_last_dot]. rewrite Ht. reflexivity.
  - simpl. rewrite has_char_app. simpl. rewrite orb_true_r, IH. reflexivity.
Qed.

Lemma splitext_root_extension id ext :
  ospath.has_char ospath.is_sep id = false ->
  ospath.all_chars ospath.is_dot id = false ->
  ospath.has_char ospath.is_sep ext = false ->
  ospath.has_char ospath.is_dot ext = false ->
  ospath.splitext_root (id +:+ "." +:+ ext) = id.
Proof.
  intros Hsep Hdots Hesep Hedot. unfold ospath.splitext_root.
  assert (Hs : ospath.has_char ospath.is_sep (id +:+ "." +:+ ext) = false).
  { rewrite has_char_app, Hsep. change ("." +:+ ext) with (String "." ext).
    simpl. exact Hesep. }
  assert (Hd : ospath.has_char ospath.is_dot (id +:+ "." +:+ ext) = true).
  { rewrite has_char_app. change ("." +:+ ext) with (String "." ext).
    simpl. apply orb_true_r. }
  rewrite (after_last_sep_no_sep _ Hs), Hd.
  rewrite before_last_dot_app by exact Hedot.
  rewrite after_last_sep_no_sep by exact Hsep.
  rewrite Hdots. reflexivity.
Qed.

Lemma compound_id_of_link directory id :
  plain_identifier id ->
  compound_id_of (ospath.join directory (id +:+ ".txt")) = id.
Proof.
  intros (Hsep & Hcolon & Hdots). unfold compound_id_of.
  rewrite basename_join
    by (rewrite has_char_app; first [rewrite Hsep|rewrite Hcolon];
        reflexivity).
  apply (splitext_root_extension id "txt"); auto.
Qed.

(** X1.  The identifier that process_link_file derives from a link file
    [directory\id.txt] is [id], and the download goes to [id.mol] in the
    output directory. *)
Theorem compound_id_round_trip directory id :
  plain_identifier id ->
  compound_id_of (ospath.join directory (id +:+ ".txt")) = id
  /\ output_path_of (ospath.join directory (id +:+ ".txt"))
     = ospath.join OUTPUT_DIRECTORY (id +:+ ".mol").
Proof.
  intros Hplain.
  pose proof (compound_id_of_link directory id Hplain) as Hid.
  split; [exact Hid|]. unfold output_path_of. rewrite Hid. reflexivity.
Qed.

Lemma compound_id_round_trip_witness :
  compound_id_of (ospath.join LINKS_DIRECTORY "SN0001.v2.txt") = "SN0001.v2"
  /\ output_path_of (ospath.join LINKS_DIRECTORY "SN0001.v2.txt")
     = ospath.join OUTPUT_DIRECTORY "SN0001.v2.mol".
Proof.
  apply (compound_id_round_trip LINKS_DIRECTORY "SN0001.v2").
  repeat split.
Defined.

(** ** Only the destination is written *)

Lemma attempt_files_frame a output_path fs p :
  p <> output_path -> attempt_files a output_path fs !! p = fs !! p.
Proof.
  intros Hp. unfold attempt_files.
  destruct (reply a) as [e|r]; [reflexivity|].
  destruct (status_code r =? 200)%Z; [|reflexivity].
  apply lookup_insert_ne. congruence.
Qed.

Lemma download_frame net url output_path p :
  p <> output_path ->
  forall r w,
    files (snd (download_molecule net url output_path r w)) !! p
      = files w !! p.
Proof.
  intros Hp. induction r as [r IH] using retries_ind. intros w.
  rewrite download_step.
  destruct (attempt_verdict (net r)).
  - cbn [snd attempt_world files]. apply attempt_files_frame, Hp.
  - destruct (lt_dec r MAX_RETRIES) as [l|].
    + rewrite (IH l). cbn [backoff_world attempt_world files].
      apply attempt_files_frame, Hp.
    + cbn [snd attempt_world files]. apply attempt_files_frame, Hp.
Qed.

Lemma validated_frame output_path success w p :
  p <> output_path ->
  files (snd (validated output_path success w)) !! p = files w !! p.
Proof.
  intros Hp. unfold validated.
  destruct (files w !! output_path) as [[|x l]|]; try reflexivity.
  cbn [snd files]. apply lookup_delete_ne. congruence.
Qed.

(** X2.  process_link_file reads its link file and writes or removes its own
    destination; every other path of the disk is as before. *)
Theorem process_link_file_frame net file_path w p :
  p <> output_path_of file_path ->
  files (snd (process_link_file net file_path w)) !! p = files w !! p.
Proof.
  intros Hp. rewrite process_link_file_spec.
  destruct (link_url file_path w) as [url|]; [|reflexivity].
  destruct (String.eqb url EmptyString); [reflexivity|].
  pose proof (download_frame net url (output_path_of file_path) p Hp 0 w)
    as Hdl.
  destruct (download_molecule net url (output_path_of file_path) 0 w)
    as [[success|e] w1]; cbn [snd] in *.
  - rewrite validated_frame by exact Hp. exact Hdl.
  - exact Hdl.
Qed.

Lemma process_link_file_frame_witness :
  files (snd (process_link_file (Scenario.always Scenario.cut_off)
                Scenario.link_file Scenario.fresh)) !! Scenario.link_file
  = files Scenario.fresh !! Scenario.link_file.
Proof.
  apply (process_link_file_frame (Scenario.always Scenario.cut_off)
           Scenario.link_file Scenario.fresh Scenario.link_file).
  vm_compute. discriminate.
Defined.

(** ** The disk after a success *)

Lemma files_retried_frame net url output_path p :
  p <> output_path ->
  forall k r w,
    files (retried net url output_path r k w) !! p = files w !! p.
Proof.
  intros Hp. induction k as [|k IH]; intros r w; [reflexivity|].
  cbn [retried]. rewrite IH. cbn [backoff_world attempt_world files].
  apply attempt_files_frame, Hp.
Qed.

(** X3.  When the attempt that ends the retries is a complete response with
    status 200, download_molecule changes the disk in one place: the
    destination holds the bytes of that response, whatever earlier
    attempts or earlier runs had written there and however the body was
    cut into chunks. *)
Theorem download_success_disk net url output_path k resp w :
  k <= MAX_RETRIES ->
  succeeds_at net k resp ->
  fst (download_molecule net url output_path 0 w) = Val true
  /\ files (snd (download_molecule net url output_path 0 w))
     = <[output_path := concat (chunks resp)]> (files w).
Proof.
  intros Hk Hok.
  rewrite (download_succeeds_at net url output_path k resp w Hk Hok).
  split; [reflexivity|]. cbn [snd files].
  apply map_eq. intros p.
  destruct (decide (p = output_path)) as [->|Hp].
  - rewrite !lookup_insert_eq. reflexivity.
  - rewrite !lookup_insert_ne by congruence.
    apply files_retried_frame, Hp.
Qed.

Lemma download_success_disk_witness :
  files (snd (download_molecule
                (Scenario.after 2 Scenario.cut_off (Scenario.ok Scenario.body))
                Scenario.url Scenario.destination 0 Scenario.rerun))
  = <[Scenario.destination := Scenario.bytes "ABC"]> (files Scenario.rerun).
Proof.
  apply (download_success_disk
           (Scenario.after 2 Scenario.cut_off (Scenario.ok Scenario.body))
           Scenario.url Scenario.destination 2
           (Response 200 Scenario.body StreamComplete) Scenario.rerun).
  - unfold MAX_RETRIES. lia.
  - repeat split. intros [|[|i]] Hi; [reflexivity|reflexivity|lia].
Defined.

(** ** Unexpected errors are not retried *)

(** X4.  An exception that is not a RequestException, raised by the request or
    while the body of a response with status 200 is streamed, ends the
    download at once: False is returned, whatever [retries] is, and no
    further request is sent. *)
Theorem unexpected_error_is_final net url output_path retries w :
  reply (net retries) = GetRaises OtherException
  \/ (exists resp,
        reply (net retries) = Responded resp
        /\ status_code resp = 200%Z
        /\ ending resp = StreamRaises OtherException) ->
  fst (download_molecule net url output_path retries w) = Val false
  /\ attempts (snd (download_molecule net url output_path retries w))
     = attempts w + 1
  /\ trace (snd (download_molecule net url output_path retries w))
     = trace w ++ [EvSleep (polite_delay (net retries)); EvGet url].
Proof.
  intros Hcase. rewrite download_step.
  assert (Hv : attempt_verdict (net retries) = Done false).
  { unfold attempt_verdict.
    destruct Hcase as [->|(resp & -> & -> & ->)]; reflexivity. }
  rewrite Hv. cbn [fst snd]. rewrite attempts_attempt_world.
  repeat split.
Qed.

Lemma unexpected_error_is_final_witness :
  fst (download_molecule
         (Scenario.always
            (AttemptEnv 1 (GetRaises OtherException) (1 # 2)))
         Scenario.url Scenario.destination 0 Scenario.fresh) = Val false
  /\ attempts (snd (download_molecule
                      (Scenario.always
                         (AttemptEnv 1 (GetRaises OtherException) (1 # 2)))
                      Scenario.url Scenario.destination 0 Scenario.fresh))
     = attempts Scenario.fresh + 1.
Proof.
  destruct (unexpected_error_is_final
              (Scenario.always
                 (AttemptEnv 1 (GetRaises OtherException) (1 # 2)))
              Scenario.url Scenario.destination 0 Scenario.fresh)
    as (Hv & Ha & _).
  - left. reflexivity.
  - split; [exact Hv|exact Ha].
Defined.

(** ** Link files without a URL *)

(** X5.  A link file that holds only white space, or that cannot be read, gives
    a failure outcome without any request, any wait or any change of the
    disk. *)
Theorem blank_link_file_is_failure net file_path w :
  link_url file_path w = None \/ link_url file_path w = Some EmptyString ->
  exists id,
    process_link_file net file_path w = (Val (id, false), w)
    /\ (link_url file_path w = Some EmptyString ->
        id = compound_id_of file_path)
    /\ (link_url file_path w = None -> id = ospath.basename file_path).
Proof.
  intros Hcase. rewrite process_link_file_spec.
  destruct Hcase as [H|H]; rewrite H; eexists; (split; [reflexivity|]);
    split; intros H'; try reflexivity; congruence.
Qed.

Lemma blank_link_file_is_failure_witness :
  exists id,
    process_link_file (Scenario.always (Scenario.ok Scenario.body))
      Scenario.blank_link Scenario.blank
    = (Val (id, false), Scenario.blank)
    /\ id = "id2".
Proof.
  destruct (blank_link_file_is_failure
              (Scenario.always (Scenario.ok Scenario.body))
              Scenario.blank_link Scenario.blank)
    as (id & Hp & Hid & _).
  - right. reflexivity.
  - exists id. split; [exact Hp|]. rewrite Hid; reflexivity.
Defined.

(** ** Time slept by one download *)

Lemma total_sleep_attempt_world a url output_path w :
  (total_sleep (trace (attempt_world a url output_path w))
   == total_sleep (trace w) + polite_delay a)%Q.
Proof.
  cbn [attempt_world trace].
  pose proof (total_sleep_app (trace w) [EvSleep (polite_delay a); EvGet url])
    as H.
  cbn [total_sleep] in H.
  set (X := total_sleep (trace w ++ _)) in *.
  set (A := total_sleep (trace w)) in *.
  set (p := polite_delay a) in *.
  clearbody X A p. lra.
Qed.

Lemma total_sleep_backoff_world a r w :
  (total_sleep (trace (backoff_world a r w))
   == total_sleep (trace w) + backoff a r)%Q.
Proof.
  cbn [backoff_world trace].
  pose proof (total_sleep_app (trace w) [EvSleep (backoff a r)]) as H.
  cbn [total_sleep] in H.
  set (X := total_sleep (trace w ++ _)) in *.
  set (A := total_sleep (trace w)) in *.
  set (b := backoff a r) in *.
  clearbody X A b. lra.
Qed.

Lemma inject_Z_pow2_nonneg (r : nat) : (0 <= inject_Z (2 ^ Z.of_nat r))%Q.
Proof.
  change 0%Q with (inject_Z 0). rewrite <- Zle_Qle.
  apply Z.pow_nonneg. lia.
Qed.

Lemma backoff_bounds a r :
  random_ok a ->
  (inject_Z (2 ^ Z.of_nat r) <= backoff a r
   /\ backoff a r < inject_Z (2 ^ Z.of_nat r) + 1)%Q.
Proof.
  intros (_ & _ & Hj0 & Hj1). unfold backoff. split; lra.
Qed.

Lemma polite_delay_bounds a :
  random_ok a -> (1 # 2 <= polite_delay a /\ polite_delay a <= 2)%Q.
Proof.
  unfold random_ok, REQUEST_DELAY. cbn [fst snd].
  intros (Hlo & Hhi & _). split; [exact Hlo|]. lra.
Qed.

Lemma download_sleep_lower net url output_path :
  (forall i, random_ok (net i)) ->
  forall r w,
    exists n,
      attempts (snd (download_molecule net url output_path r w))
        = attempts w + n
      /\ (total_sleep (trace w) + (1 # 2) * inject_Z (Z.of_nat n)
          <= total_sleep
               (trace (snd (download_molecule net url output_path r w))))%Q.
Proof.
  intros Hrand. induction r as [r IH] using retries_ind. intros w.
  rewrite download_step.
  pose proof (total_sleep_attempt_world (net r) url output_path w) as Ha.
  destruct (polite_delay_bounds _ (Hrand r)) as [Hp _].
  assert (Hone : exists n,
             attempts (attempt_world (net r) url output_path w)
               = attempts w + n
             /\ (total_sleep (trace w) + (1 # 2) * inject_Z (Z.of_nat n)
                 <= total_sleep
                      (trace (attempt_world (net r) url output_path w)))%Q).
  { exists 1. split; [apply attempts_attempt_world|].
    set (X := total_sleep (trace (attempt_world _ _ _ _))) in *.
    set (A := total_sleep (trace w)) in *.
    set (p := polite_delay (net r)) in *.
    change (inject_Z (Z.of_nat 1)) with 1%Q.
    clearbody X A p. lra. }
  destruct (attempt_verdict (net r)); [exact Hone|].
  destruct (lt_dec r MAX_RETRIES) as [l|]; [|exact Hone].
  destruct (IH l (backoff_world (net r) r
                    (attempt_world (net r) url output_path w)))
    as (n & Hn & Hs).
  exists (S n). split.
  { rewrite Hn, attempts_backoff_world, attempts_attempt_world. lia. }
  pose proof (total_sleep_backoff_world (net r) r
                (attempt_world (net r) url output_path w)) as Hb.
  destruct (backoff_bounds _ r (Hrand r)) as [Hb0 _].
  pose proof (inject_Z_pow2_nonneg r) as Hpow.
  assert (HS : (inject_Z (Z.of_nat (S n)) == inject_Z (Z.of_nat n) + 1)%Q).
  { rewrite Nat2Z.inj_succ. unfold Z.succ. rewrite inject_Z_plus.
    reflexivity. }
  set (X := total_sleep (trace (snd _))) in *.
  set (W2 := total_sleep (trace (backoff_world _ _ _))) in *.
  set (W1 := total_sleep (trace (attempt_world _ _ _ _))) in *.
  set (A := total_sleep (trace w)) in *.
  set (p := polite_delay (net r)) in *.
  set (b := backoff (net r) r) in *.
  set (e := inject_Z (2 ^ Z.of_nat r)) in *.
  set (Sn := inject_Z (Z.of_nat (S n))) in *.
  set (N := inject_Z (Z.of_nat n)) in *.
  clearbody X W2 W1 A p b e Sn N. lra.
Qed.

Lemma worst_sleep_ge_2 n r : (2 <= worst_sleep n r)%Q.
Proof.
  revert r. induction n as [|n IH]; intros r; cbn [worst_sleep]; [lra|].
  specialize (IH (S r)). pose proof (inject_Z_pow2_nonneg r).
  set (e := inject_Z (2 ^ Z.of_nat r)) in *.
  set (x := worst_sleep n (S r)) in *. clearbody e x. lra.
Qed.

Lemma download_sleep_upper net url output_path :
  (forall i, random_ok (net i)) ->
  forall r w,
    r <= MAX_RETRIES ->
    (total_sleep (trace (snd (download_molecule net url output_path r w)))
     <= total_sleep (trace w) + worst_sleep (MAX_RETRIES - r) r)%Q.
Proof.
  intros Hrand. induction r as [r IH] using retries_ind. intros w Hle.
  rewrite download_step.
  pose proof (total_sleep_attempt_world (net r) url output_path w) as Ha.
  destruct (polite_delay_bounds _ (Hrand r)) as [_ Hp].
  pose proof (worst_sleep_ge_2 (MAX_RETRIES - r) r) as Hw.
  assert (Hone : (total_sleep
                    (trace (attempt_world (net r) url output_path w))
                  <= total_sleep (trace w)
                     + worst_sleep (MAX_RETRIES - r) r)%Q).
  { set (X := total_sleep (trace (attempt_world _ _ _ _))) in *.
    set (A := total_sleep (trace w)) in *.
    set (p := polite_delay (net r)) in *.
    set (W := worst_sleep _ _) in *.
    clearbody X A p W. lra. }
  destruct (attempt_verdict (net r)); [exact Hone|].
  destruct (lt_dec r MAX_RETRIES) as [l|]; [|exact Hone].
  specialize (IH l (backoff_world (net r) r
                      (attempt_world (net r) url output_path w))
                ltac:(lia)).
  pose proof (total_sleep_backoff_world (net r) r
                (attempt_world (net r) url output_path w)) as Hb.
  destruct (backoff_bounds _ r (Hrand r)) as [_ Hb1].
  replace (MAX_RETRIES - r) with (S (MAX_RETRIES - S r)) by lia.
  cbn [worst_sleep].
  set (X := total_sleep (trace (snd _))) in *.
  set (W2 := total_sleep (trace (backoff_world _ _ _))) in *.
  set (W1 := total_sleep (trace (attempt_world _ _ _ _))) in *.
  set (A := total_sleep (trace w)) in *.
  set (p := polite_delay (net r)) in *.
  set (b := backoff (net r) r) in *.
  set (e := inject_Z (2 ^ Z.of_nat r)) in *.
  set (W := worst_sleep (MAX_RETRIES - S r) (S r)) in *.
  clearbody X W2 W1 A p b e W. lra.
Qed.

(** X6.  With delays drawn from the configured ranges, one call of
    download_molecule sleeps at least half a second for every request it
    sends, and at most 18 seconds in all: four polite delays of at most
    2 seconds and three backoff delays below 2, 3 and 5 seconds. *)
Theorem download_sleep_bounds net url output_path w :
  (forall i, random_ok (net i)) ->
  exists n,
    attempts (snd (download_molecule net url output_path 0 w))
      = attempts w + n
    /\ 1 <= n <= MAX_RETRIES + 1
    /\ (total_sleep (trace w) + (1 # 2) * inject_Z (Z.of_nat n)
        <= total_sleep
             (trace (snd (download_molecule net url output_path 0 w))))%Q
    /\ (total_sleep (trace (snd (download_molecule net url output_path 0 w)))
        <= total_sleep (trace w) + 18)%Q.
Proof.
  intros Hrand.
  destruct (download_sleep_lower net url output_path Hrand 0 w)
    as (n & Hn & Hlow).
  pose proof (download_attempts_bound net url output_path 0 w ltac:(lia))
    as Hb.
  pose proof (download_sleep_upper net url output_path Hrand 0 w ltac:(lia))
    as Hup.
  exists n. split; [exact Hn|]. split; [lia|]. split; [exact Hlow|].
  assert (H18 : (worst_sleep (MAX_RETRIES - 0) 0 == 18)%Q) by reflexivity.
  set (X := total_sleep (trace (snd _))) in *.
  set (A := total_sleep (trace w)) in *.
  set (W := worst_sleep _ _) in *.
  clearbody X A W. lra.
Qed.

Lemma download_sleep_bounds_witness :
  exists n,
    attempts (snd (download_molecule (Scenario.always Scenario.not_found)
                     Scenario.url Scenario.destination 0 Scenario.fresh))
      = attempts Scenario.fresh + n
    /\ (total_sleep (trace (snd (download_molecule
                                   (Scenario.always Scenario.not_found)
                                   Scenario.url Scenario.destination 0
                                   Scenario.fresh)))
        <= total_sleep (trace Scenario.fresh) + 18)%Q.
Proof.
  destruct (download_sleep_bounds (Scenario.always Scenario.not_found)
              Scenario.url Scenario.destination Scenario.fresh)
    as (n & Hn & _ & _ & Hup).
  - intros i. unfold random_ok. cbn. unfold Qle, Qlt. cbn. lia.
  - exists n. split; [exact Hn|exact Hup].
Defined.

(** ** Requests of a whole run *)

Lemma attempts_validated output_path success w :
  attempts (snd (validated output_path success w)) = attempts w.
Proof.
  unfold validated.
  destruct (files w !! output_path) as [[|x l]|]; reflexivity.
Qed.

Lemma process_attempts_bound net file_path w :
  attempts w
    <= attempts (snd (process_link_file net file_path w))
    <= attempts w + (MAX_RETRIES + 1).
Proof.
  rewrite process_link_file_spec.
  destruct (link_url file_path w) as [url|]; [|cbn [snd]; lia].
  destruct (String.eqb url EmptyString); [cbn [snd]; lia|].
  pose proof (download_attempts_bound net url (output_path_of file_path) 0 w
                ltac:(lia)) as Hb.
  destruct (download_molecule net url (output_path_of file_path) 0 w)
    as [[success|e] w1]; cbn [snd] in *.
  - rewrite attempts_validated. lia.
  - lia.
Qed.

Lemma submit_all_cons env file_path rest w :
  submit_all env (file_path :: rest) w =
    match submit_all env rest
            (snd (process_link_file (net_of env file_path) file_path w)) with
    | (Val futs, w2) =>
        (Val (fst (process_link_file (net_of env file_path) file_path w)
              :: futs), w2)
    | (Exc e, w2) => (Exc e, w2)
    end.
Proof.
  cbn [submit_all]. unfold bind at 1. unfold submit at 1.
  destruct (process_link_file (net_of env file_path) file_path w)
    as [fut w1]. cbn [fst snd]. unfold bind at 1.
  destruct (submit_all env rest w1) as [[futs|e] w2]; reflexivity.
Qed.

Lemma submit_all_attempts_bound env link_files :
  forall w,
    attempts w
      <= attempts (snd (submit_all env link_files w))
      <= attempts w + (MAX_RETRIES + 1) * length link_files.
Proof.
  induction link_files as [|file_path rest IH]; intros w.
  - cbn. lia.
  - rewrite submit_all_cons. cbn [length].
    pose proof (process_attempts_bound (net_of env file_path) file_path w)
      as Hp.
    specialize (IH (snd (process_link_file (net_of env file_path)
                           file_path w))).
    destruct (submit_all env rest _) as [[futs|e] w2]; cbn [snd] in *;
      unfold MAX_RETRIES in *; lia.
Qed.

(** X7.  A run sends at most MAX_RETRIES + 1 = 4 requests for each link file it
    gathered, and none when the listing fails. *)
Theorem run_request_bound env w :
  attempts w
    <= attempts (snd (main env w))
    <= attempts w
       + (MAX_RETRIES + 1)
         * match listdir env with
           | Some names => length (link_files_of names w)
           | None => 0
           end.
Proof.
  rewrite main_spec.
  destruct (listdir env) as [names|]; [|cbn [snd]; lia].
  destruct (length (link_files_of names w) =? 0)%nat; [cbn [snd]; lia|].
  pose proof (submit_all_attempts_bound env (link_files_of names w) w) as Hb.
  destruct (submit_all env (link_files_of names w) w) as [[futs|e] w1];
    cbn [snd] in *; exact Hb.
Qed.

(** ** Link files are never written *)

Lemma string_app_assoc (a b c : string) : (a +:+ b) +:+ c = a +:+ b +:+ c.
Proof.
  induction a as [|x a IH]; [reflexivity|].
  change (String x ((a +:+ b) +:+ c) = String x (a +:+ b +:+ c)).
  rewrite IH. reflexivity.
Qed.

Lemma string_length_app (a b : string) :
  String.length (a +:+ b) = String.length a + String.length b.
Proof.
  induction a as [|x a IH]; [reflexivity|].
  change (S (String.length (a +:+ b)) = S (String.length a + String.length b)).
  rewrite IH. reflexivity.
Qed.

Lemma endswith_mol_not_txt a : endswith (a +:+ ".mol") ".txt" = false.
Proof.
  induction a as [|x a IH]; [reflexivity|].
  change (String x a +:+ ".mol") with (String x (a +:+ ".mol")).
  cbn [endswith]. rewrite IH.
  destruct (String.eqb_spec (String x (a +:+ ".mol")) ".txt") as [Heq|_];
    [|reflexivity].
  apply (f_equal String.length) in Heq.
  change (S (String.length (a +:+ ".mol")) = 4) in Heq.
  rewrite string_length_app in Heq. cbn in Heq. lia.
Qed.

Lemma output_path_not_txt file_path :
  endswith (output_path_of file_path) ".txt" = false.
Proof.
  unfold output_path_of, ospath.join.
  rewrite <- !string_app_assoc. apply endswith_mol_not_txt.
Qed.

Lemma submit_all_frame env p link_files :
  (forall file_path, p <> output_path_of file_path) ->
  forall w, files (snd (submit_all env link_files w)) !! p = files w !! p.
Proof.
  intros Hp. induction link_files as [|file_path rest IH]; intros w.
  - reflexivity.
  - cbn [submit_all]. unfold bind at 1. unfold submit at 1.
    pose proof (process_link_file_frame (net_of env file_path) file_path w p
                  (Hp file_path)) as Hf.
    destruct (process_link_file (net_of env file_path) file_path w)
      as [fut w1]. cbn [snd] in Hf.
    unfold bind at 1. specialize (IH w1).
    destruct (submit_all env rest w1) as [[futs|e] w2]; cbn [snd] in *;
      unfold ret; cbn [snd]; congruence.
Qed.

(** X8.  A run never creates, changes or removes a file whose name ends with
    [.txt], the summary file apart: the link files are all there, with
    the same content, when main returns. *)
Theorem run_keeps_link_files env w p :
  endswith p ".txt" = true ->
  p <> summary_path ->
  files (snd (main env w)) !! p = files w !! p.
Proof.
  intros Htxt Hsum.
  assert (Hp : forall file_path, p <> output_path_of file_path).
  { intros file_path ->. rewrite output_path_not_txt in Htxt. discriminate. }
  rewrite main_spec.
  destruct (listdir env) as [names|]; [|reflexivity].
  destruct (length (link_files_of names w) =? 0)%nat; [reflexivity|].
  pose proof (submit_all_frame env p (link_files_of names w) Hp w) as Hf.
  destruct (submit_all env (link_files_of names w) w) as [[futs|e] w1];
    cbn [snd files] in *; [|exact Hf].
  rewrite lookup_insert_ne by congruence. exact Hf.
Qed.

Lemma run_keeps_link_files_witness :
  files (snd (main Scenario.one_link Scenario.fresh)) !! Scenario.link_file
  = files Scenario.fresh !! Scenario.link_file.
Proof.
  apply (run_keeps_link_files Scenario.one_link Scenario.fresh
           Scenario.link_file).
  - reflexivity.
  - vm_compute. discriminate.
Defined.

(** ** The completion order does not matter *)


Lemma tally_of_completed env futs :
  fold_left collect (as_completed env futs) (Tally 0 0 0)
  = Tally (count_succeeded futs) (length futs - count_succeeded futs)
      (length futs).
Proof.
  rewrite fold_collect.
  rewrite (count_succeeded_Permutation _ _ (as_completed_Permutation env futs)),
    (Permutation_length (as_completed_Permutation env futs)).
  reflexivity.
Qed.


(** ** Gathering the link files *)

Lemma link_files_of_elem names w p :
  p ∈ link_files_of names w <->
  exists f,
    f ∈ names /\ endswith f ".txt" = true
    /\ is_Some (files w !! ospath.join LINKS_DIRECTORY f)
    /\ p = ospath.join LINKS_DIRECTORY f.
Proof.
  induction names as [|f0 rest IH]; cbn [link_files_of].
  - split; [intros H; inversion H|intros (f & H & _); inversion H].
  - destruct (endswith f0 ".txt") eqn:Htxt; cbn [andb].
    + destruct (bool_decide_reflect
                  (is_Some (files w !! ospath.join LINKS_DIRECTORY f0)))
        as [Hsome|Hnone].
      * rewrite elem_of_cons, IH. split.
        -- intros [->|(f & Hf & H)].
           ++ exists f0. rewrite elem_of_cons. auto.
           ++ exists f. rewrite elem_of_cons. tauto.
        -- intros (f & Hf & Ht & Hs & ->).
           apply elem_of_cons in Hf as [->|Hf]; [left; reflexivity|].
           right. exists f. auto.
      * rewrite IH. split.
        -- intros (f & Hf & H). exists f. rewrite elem_of_cons. tauto.
        -- intros (f & Hf & Ht & Hs & ->).
           apply elem_of_cons in Hf as [->|Hf]; [contradiction|].
           exists f. auto.
    + rewrite IH. split.
      * intros (f & Hf & H). exists f. rewrite elem_of_cons. tauto.
      * intros (f & Hf & Ht & Hs & ->).
        apply elem_of_cons in Hf as [->|Hf]; [congruence|].
        exists f. auto.
Qed.



(** ** The summary of one run is a link file of the next *)

Lemma strip_first_char c rest :
  isspace c = false -> strip (String c rest) <> EmptyString.
Proof.
  intros Hc. unfold strip. cbn [lstrip]. rewrite Hc. cbn [rstrip].
  destruct (rstrip rest); [rewrite Hc|]; discriminate.
Qed.

Lemma strip_summary_text total succeeded failed :
  strip (summary_text total succeeded failed) <> EmptyString.
Proof.
  change (summary_text total succeeded failed)
    with (String "T"
            ("otal files processed: " +:+ pretty total +:+ newline +:+
             "Successfully downloaded: " +:+ pretty succeeded +:+ newline +:+
             "Failed downloads: " +:+ pretty failed +:+ newline)).
  apply strip_first_char. reflexivity.
Qed.

(** X11.  The output directory is the links directory and the summary is named
    [download_summary.txt]: once a run has written it, the summary is
    gathered as a link file, its text is taken for a URL, and fetching it
    sends at least one request. *)
Theorem summary_is_gathered_next_run env w names :
  listdir env = Some names ->
  0 < length (link_files_of names w) ->
  link_files_of ["download_summary.txt"] (snd (main env w)) = [summary_path]
  /\ compound_id_of summary_path = "download_summary"
  /\ (exists u,
        link_url summary_path (snd (main env w)) = Some u
        /\ u <> EmptyString)
  /\ (forall net,
        attempts (snd (main env w)) + 1
          <= attempts (snd (process_link_file net summary_path
                              (snd (main env w))))).
Proof.
  intros Hlist Hpos.
  destruct (submit_all_outcomes env (link_files_of names w) w)
    as (futs & w1 & Hsub & _).
  assert (Hsum : exists total succeeded failed,
             files (snd (main env w)) !! summary_path
               = Some (list_byte_of_string
                         (summary_text total succeeded failed))).
  { rewrite main_spec, Hlist, Hsub.
    destruct (Nat.eqb_spec (length (link_files_of names w)) 0); [lia|].
    cbn [snd files]. rewrite lookup_insert_eq. eauto. }
  destruct Hsum as (total & s & f & Hsum).
  assert (Hurl : link_url summary_path (snd (main env w))
                 = Some (strip (summary_text total s f))).
  { unfold link_url. rewrite Hsum, string_of_list_byte_of_string.
    reflexivity. }
  split.
  { cbn [link_files_of].
    change (ospath.join LINKS_DIRECTORY "download_summary.txt")
      with summary_path.
    rewrite Hsum. reflexivity. }
  split; [reflexivity|].
  split; [eexists; split; [exact Hurl|apply strip_summary_text]|].
  intros net. rewrite process_link_file_spec, Hurl.
  pose proof (strip_summary_text total s f) as Hne.
  apply String.eqb_neq in Hne. rewrite Hne.
  pose proof (download_attempts_bound net (strip (summary_text total s f))
                (output_path_of summary_path) 0 (snd (main env w))
                ltac:(lia)) as Hb.
  destruct (download_molecule _ _ _ 0 (snd (main env w)))
    as [[success|e] w2]; cbn [snd] in *.
  - rewrite attempts_validated. lia.
  - lia.
Qed.

Lemma summary_is_gathered_next_run_witness :
  link_files_of ["download_summary.txt"]
    (snd (main Scenario.one_link Scenario.fresh)) = [summary_path]
  /\ exists u,
       link_url summary_path (snd (main Scenario.one_link Scenario.fresh))
         = Some u
       /\ u <> EmptyString.
Proof.
  destruct (summary_is_gathered_next_run Scenario.one_link Scenario.fresh
              ["id1.txt"; "readme.md"])
    as (Hg & _ & Hu & _).
  - reflexivity.
  - vm_compute. lia.
  - split; [exact Hg|exact Hu].
Defined.

(** ** A run in which every download succeeds at once *)

Lemma endswith_app_pre pre s suffix :
  endswith s suffix = true -> endswith (pre +:+ s) suffix = true.
Proof.
  intros H. induction pre as [|c pre IH]; [exact H|].
  change (String c pre +:+ s) with (String c (pre +:+ s)).
  cbn [endswith]. rewrite IH. destruct (String.eqb _ _); reflexivity.
Qed.

Lemma link_files_of_txt names w p :
  p ∈ link_files_of names w -> endswith p ".txt" = true.
Proof.
  intros Hp. apply link_files_of_elem in Hp as (f & _ & Htxt & _ & ->).
  unfold ospath.join. rewrite <- string_app_assoc.
  apply endswith_app_pre, Htxt.
Qed.

Lemma txt_is_not_output_path p file_path :
  endswith p ".txt" = true -> p <> output_path_of file_path.
Proof.
  intros Htxt ->. rewrite output_path_not_txt in Htxt. discriminate.
Qed.

Lemma process_first_reply_succeeds env w file_path :
  first_reply_succeeds env w file_path ->
  exists body,
    body <> []
    /\ process_link_file (net_of env file_path) file_path w
       = (Val (compound_id_of file_path, true),
          World (<[output_path_of file_path := body]> (files w))
            (trace w
             ++ [EvSleep (polite_delay (net_of env file_path 0));
                 EvGet (default EmptyString (link_url file_path w))])).
Proof.
  intros (url & resp & Hurl & Hne & Hreply & Hstatus & Hend & Hbody).
  pose proof (download_succeeds_at (net_of env file_path) url
                (output_path_of file_path) 0 resp w ltac:(lia)) as Hdl.
  rewrite app_nil_l in Hdl. cbn [retried] in Hdl.
  specialize (Hdl ltac:(repeat split; [intros i Hi; lia|assumption..])).
  rewrite (process_link_file_attempted _ _ _ _ _ _ Hurl Hne Hdl).
  unfold validated. cbn [files]. rewrite lookup_insert_eq, Hurl.
  exists (concat (chunks resp)). split; [exact Hbody|].
  destruct (concat (chunks resp)) as [|b l]; [congruence|]. reflexivity.
Qed.

Lemma submit_all_all_succeed env link_files :
  forall w,
    (forall file_path,
       file_path ∈ link_files ->
       endswith file_path ".txt" = true
       /\ first_reply_succeeds env w file_path) ->
    exists w',
      submit_all env link_files w
        = (Val (map (fun file_path => Val (compound_id_of file_path, true))
                  link_files), w')
      /\ attempts w' = attempts w + length link_files
      /\ (forall p, endswith p ".txt" = true ->
                    files w' !! p = files w !! p)
      /\ (forall p, nonempty_at p w -> nonempty_at p w')
      /\ (forall file_path,
            file_path ∈ link_files ->
            nonempty_at (output_path_of file_path) w').
Proof.
  induction link_files as [|file_path rest IH]; intros w Hall.
  - exists w. split; [reflexivity|]. split; [cbn; lia|].
    split; [reflexivity|]. split; [auto|].
    intros fp Hfp. inversion Hfp.
  - destruct (Hall file_path ltac:(left)) as [Htxt Hgood].
    destruct (process_first_reply_succeeds env w file_path Hgood)
      as (body & Hbody & Hp).
    rewrite submit_all_cons, Hp. cbn [fst snd].
    match goal with
    | |- context [submit_all env rest ?w1] =>
        destruct (IH w1) as (w' & Hs & Ha & Hkeep & Hmono & Hout)
    end.
    { intros fp Hfp. destruct (Hall fp ltac:(right; exact Hfp))
        as [Hfptxt (url & resp & Hurl & Hrest)].
      split; [exact Hfptxt|]. exists url, resp. split; [|exact Hrest].
      unfold link_url in *. cbn [files].
      rewrite lookup_insert_ne
        by (apply not_eq_sym, txt_is_not_output_path, Hfptxt).
      exact Hurl. }
    rewrite Hs. exists w'. split; [reflexivity|].
    split.
    { rewrite Ha. unfold attempts. cbn [trace length].
      rewrite count_gets_app. cbn. lia. }
    split.
    { intros p Hptxt. rewrite (Hkeep p Hptxt). cbn [files].
      apply lookup_insert_ne, not_eq_sym, txt_is_not_output_path, Hptxt. }
    split.
    { intros p (c & Hc & Hne). apply Hmono. unfold nonempty_at. cbn [files].
      destruct (decide (p = output_path_of file_path)) as [->|Hdiff].
      - exists body. rewrite lookup_insert_eq. auto.
      - exists c. rewrite lookup_insert_ne by congruence. auto. }
    intros fp Hfp. apply elem_of_cons in Hfp as [->|Hfp]; [|apply Hout, Hfp].
    apply Hmono. exists body. cbn [files]. rewrite lookup_insert_eq. auto.
Qed.

Lemma count_succeeded_all (link_files : list string) :
  count_succeeded
    (map (fun file_path => Val (compound_id_of file_path, true)) link_files)
  = length link_files.
Proof.
  induction link_files as [|fp rest IH]; [reflexivity|].
  cbn [map count_succeeded succeeded length]. rewrite IH. reflexivity.
Qed.

(** X12.  When every gathered link file holds a URL and the first reply to each
    download is a complete response with status 200 and a non-empty body,
    the run sends one request for each link file, every destination holds
    a non-empty file, and the summary reports N processed, N downloaded
    and 0 failed. *)
Theorem run_with_all_successes env w names :
  listdir env = Some names ->
  0 < length (link_files_of names w) ->
  (forall file_path,
     file_path ∈ link_files_of names w ->
     first_reply_succeeds env w file_path) ->
  files (snd (main env w)) !! summary_path
    = Some (list_byte_of_string
              (summary_text (length (link_files_of names w))
                 (length (link_files_of names w)) 0))
  /\ attempts (snd (main env w))
     = attempts w + length (link_files_of names w)
  /\ (forall file_path,
        file_path ∈ link_files_of names w ->
        nonempty_at (output_path_of file_path) (snd (main env w))).
Proof.
  intros Hlist Hpos Hgood.
  destruct (submit_all_all_succeed env (link_files_of names w) w)
    as (w1 & Hs & Ha & _ & _ & Hout).
  { intros fp Hfp. split; [apply (link_files_of_txt names w), Hfp|].
    apply Hgood, Hfp. }
  rewrite main_spec, Hlist, Hs.
  destruct (Nat.eqb_spec (length (link_files_of names w)) 0); [lia|].
  rewrite tally_of_completed, count_succeeded_all, length_map.
  cbn [successful_downloads failed_downloads snd files].
  rewrite Nat.sub_diag, lookup_insert_eq.
  split; [reflexivity|]. split; [exact Ha|].
  intros fp Hfp. destruct (Hout fp Hfp) as (c & Hc & Hne).
  exists c. cbn [files]. split; [|exact Hne].
  rewrite lookup_insert_ne; [exact Hc|].
  apply txt_is_not_output_path. reflexivity.
Qed.

Lemma run_with_all_successes_witness :
  files (snd (main Scenario.one_link Scenario.fresh)) !! summary_path
    = Some (list_byte_of_string (summary_text 1 1 0))
  /\ attempts (snd (main Scenario.one_link Scenario.fresh)) = 1.
Proof.
  destruct (run_with_all_successes Scenario.one_link Scenario.fresh
              ["id1.txt"; "readme.md"]) as (Hs & Ha & _).
  - reflexivity.
  - vm_compute. lia.
  - intros fp Hfp.
    assert (fp = Scenario.link_file) as ->.
    { change (link_files_of ["id1.txt"; "readme.md"] Scenario.fresh)
        with [Scenario.link_file] in Hfp.
      apply list_elem_of_singleton in Hfp. exact Hfp. }
    exists Scenario.url, (Response 200 Scenario.body StreamComplete).
    repeat split; discriminate.
  - split; [exact Hs|exact Ha].
Defined.

(** ** An interrupted transfer over an existing file *)

(** X13.  When a response with status 200 is cut by an unexpected error, the
    fetch fails and the destination holds the bytes received before the
    cut, or nothing when there were none: what the destination held
    before, an artifact of an earlier run included, is gone. *)
Theorem interrupted_transfer_replaces_artifact net file_path w url k resp :
  link_url file_path w = Some url ->
  url <> EmptyString ->
  k <= MAX_RETRIES ->
  (forall i, i < k -> transient_failure (net i) = true) ->
  reply (net k) = Responded resp ->
  status_code resp = 200%Z ->
  ending resp = StreamRaises OtherException ->
  fst (process_link_file net file_path w)
    = Val (compound_id_of file_path, false)
  /\ files (snd (process_link_file net file_path w))
       !! output_path_of file_path
     = match concat (chunks resp) with
       | [] => None
       | b :: l => Some (b :: l)
       end.
Proof.
  intros Hurl Hne Hk Hfail Hreply Hstatus Hend.
  assert (Hdl : download_molecule net url (output_path_of file_path) 0 w
                = (Val false,
                   attempt_world (net k) url (output_path_of file_path)
                     (retried net url (output_path_of file_path) 0 k w))).
  { rewrite (download_retried net url (output_path_of file_path) k 0 w);
      [|intros i Hi; apply Hfail; lia|lia].
    rewrite download_step. cbn [Nat.add]. unfold attempt_verdict.
    rewrite Hreply, Hstatus, Hend. reflexivity. }
  rewrite (process_link_file_attempted _ _ _ _ _ _ Hurl Hne Hdl).
  unfold validated, attempt_world, attempt_files. cbn [files].
  rewrite Hreply, Hstatus. cbn [Z.eqb Pos.eqb].
  rewrite lookup_insert_eq.
  destruct (concat (chunks resp)) as [|b l]; cbn [fst snd files].
  - split; [reflexivity|apply lookup_delete_eq].
  - split; [reflexivity|apply lookup_insert_eq].
Qed.

Lemma interrupted_transfer_replaces_artifact_witness :
  files Scenario.rerun !! Scenario.destination = Some (Scenario.bytes "ABC")
  /\ fst (process_link_file (Scenario.always Scenario.cut_unexpectedly)
            Scenario.link_file Scenario.rerun) = Val ("id1", false)
  /\ files (snd (process_link_file (Scenario.always Scenario.cut_unexpectedly)
                   Scenario.link_file Scenario.rerun))
       !! Scenario.destination = Some (Scenario.bytes "AB").
Proof.
  split; [reflexivity|].
  apply (interrupted_transfer_replaces_artifact
           (Scenario.always Scenario.cut_unexpectedly)
           Scenario.link_file Scenario.rerun Scenario.url 0
           (Response 200 [Scenario.bytes "AB"]
              (StreamRaises OtherException))).
  - reflexivity.
  - discriminate.
  - unfold MAX_RETRIES. lia.
  - intros i Hi. lia.
  - reflexivity.
  - reflexivity.
  - reflexivity.
Defined.


(** ** When a fetch succeeds *)

Lemma attempt_verdict_true a :
  attempt_verdict a = Done true ->
  exists resp,
    reply a = Responded resp
    /\ status_code resp = 200%Z
    /\ ending resp = StreamComplete.
Proof.
  unfold attempt_verdict. destruct (reply a) as [[|]|resp]; try discriminate.
  destruct (Z.eqb_spec (status_code resp) 200) as [Hs|_]; [|discriminate].
  destruct (ending resp) as [|[|]] eqn:He; try discriminate.
  intros _. exists resp. repeat split; assumption.
Qed.

Lemma download_true_inv net url output_path :
  forall r w,
    fst (download_molecule net url output_path r w) = Val true ->
    exists k resp,
      r <= k
      /\ (k <= MAX_RETRIES \/ k = r)
      /\ (forall i, r <= i < k -> transient_failure (net i) = true)
      /\ reply (net k) = Responded resp
      /\ status_code resp = 200%Z
      /\ ending resp = StreamComplete.
Proof.
  induction r as [r IH] using retries_ind. intros w.
  rewrite download_step.
  destruct (attempt_verdict (net r)) as [[|]|] eqn:Hv.
  - intros _. destruct (attempt_verdict_true _ Hv) as (resp & H1 & H2 & H3).
    exists r, resp. repeat split; auto. intros i Hi. lia.
  - discriminate.
  - destruct (lt_dec r MAX_RETRIES) as [l|]; [|discriminate].
    intros Htrue.
    destruct (IH l _ Htrue) as (k & resp & Hk & Hmax & Hfail & Hrest).
    exists k, resp. split; [lia|]. split; [left; lia|].
    split; [|exact Hrest].
    intros i Hi. destruct (decide (i = r)) as [->|Hne].
    + unfold transient_failure. rewrite Hv. reflexivity.
    + apply Hfail. lia.
Qed.

(** X14.  An attempted fetch reports success exactly when, after at most
    MAX_RETRIES attempts that failed transiently, an attempt receives a
    complete response with status 200 whose body is not empty. *)
Theorem fetch_succeeds_iff net file_path w url :
  link_url file_path w = Some url ->
  url <> EmptyString ->
  fst (process_link_file net file_path w)
    = Val (compound_id_of file_path, true)
  <-> exists k resp,
        k <= MAX_RETRIES
        /\ succeeds_at net k resp
        /\ concat (chunks resp) <> [].
Proof.
  intros Hurl Hne.
  destruct (download_value net url (output_path_of file_path) 0 w)
    as (success & w1 & Hdl).
  rewrite (process_link_file_attempted _ _ _ _ _ _ Hurl Hne Hdl).
  cbn [fst]. split.
  - intros Hval.
    assert (Hv : fst (validated (output_path_of file_path) success w1) = true)
      by congruence.
    assert (Hs : success = true /\ exists b l,
                   files w1 !! output_path_of file_path = Some (b :: l)).
    { unfold validated in Hv.
      destruct (files w1 !! output_path_of file_path) as [[|b l]|];
        cbn [fst] in Hv; try discriminate. eauto. }
    destruct Hs as [-> (b & l & Hfile)].
    destruct (download_true_inv net url (output_path_of file_path) 0 w)
      as (k & resp & _ & Hmax & Hfail & Hreply & Hstatus & Hend).
    { rewrite Hdl. reflexivity. }
    assert (Hk : k <= MAX_RETRIES) by (destruct Hmax; lia).
    assert (Hok : succeeds_at net k resp).
    { repeat split; auto. intros i Hi. apply Hfail. lia. }
    exists k, resp. split; [exact Hk|]. split; [exact Hok|].
    rewrite (download_succeeds_at _ _ _ _ _ _ Hk Hok) in Hdl.
    injection Hdl as <-. cbn [files] in Hfile.
    rewrite lookup_insert_eq in Hfile. congruence.
  - intros (k & resp & Hk & Hok & Hbody).
    rewrite (download_succeeds_at _ _ _ _ _ _ Hk Hok) in Hdl.
    injection Hdl as <- <-. unfold validated. cbn [files].
    rewrite lookup_insert_eq.
    destruct (concat (chunks resp)) as [|b l]; [congruence|]. reflexivity.
Qed.

Lemma fetch_succeeds_iff_witness :
  fst (process_link_file Scenario.not_found_then_ok Scenario.link_file
         Scenario.fresh) = Val ("id1", true).
Proof.
  apply (fetch_succeeds_iff Scenario.not_found_then_ok Scenario.link_file
           Scenario.fresh Scenario.url).
  - reflexivity.
  - discriminate.
  - exists 1, (Response 200 Scenario.body StreamComplete).
    split; [unfold MAX_RETRIES; lia|]. split; [|discriminate].
    repeat split. intros [|i] Hi; [reflexivity|lia].
Defined.

(** ** The outcomes of a run carry compound identifiers *)



(** * The link extraction script *)

Import LinkExtraction.

Lemma process_id_spec e index compound_id s :
  process_id e index compound_id s
  = (Val tt,
     after_lookup e s (Lookup index compound_id (found_url e index))).
Proof.
  unfold process_id, found_url, after_lookup.
  unfold try_except_script, bind_script, lift, write_text, time_sleep,
    log_event, count_successful, count_failed.
  destruct (get_link_url (pages e index)) as [[|c u]|]; reflexivity.
Qed.

Lemma process_each_spec e ids :
  forall index s,
    process_each e ids index s
    = (Val tt, fold_left (after_lookup e) (lookups e ids index) s).
Proof.
  induction ids as [|compound_id rest IH]; intros index s; [reflexivity|].
  cbn [process_each lookups]. unfold bind_script at 1.
  destruct (String.eqb compound_id EmptyString).
  - unfold ret_script. apply IH.
  - rewrite process_id_spec. cbn [fold_left]. apply IH.
Qed.

Lemma process_ids_spec e id_file s :
  process_ids e id_file s =
    match files (disk s) !! id_file with
    | None => (Val tt, s)
    | Some content =>
        if driver_starts e then
          (Val tt,
           fold_left (after_lookup e) (lookups e (ids_of content) 0)
             (Session (disk s) 0 0))
        else (Val tt, Session (disk s) 0 0)
    end.
Proof.
  unfold process_ids, ids_of. unfold bind_script at 1.
  unfold lift at 1, os_path_exists.
  destruct (files (disk s) !! id_file) as [content|] eqn:Hfile.
  - rewrite bool_decide_eq_true_2 by eauto. cbn [negb].
    unfold try_except_script, bind_script. unfold lift, read_text.
    cbn [disk]. rewrite Hfile. unfold reset_counters, initialize_webdriver.
    cbn [disk]. destruct s as [w sd fd]. cbn [disk].
    destruct w as [fs t].
    destruct (driver_starts e); [|reflexivity].
    unfold ret_script. rewrite process_each_spec. reflexivity.
  - rewrite bool_decide_eq_false_2 by (intros [? ?]; discriminate).
    cbn [negb]. unfold ret_script. destruct s as [[fs t] sd fd]. reflexivity.
Qed.

Lemma fold_after_lookup_counters e ls :
  forall s,
    successful_downloads (fold_left (after_lookup e) ls s)
      = successful_downloads s + count_found ls
    /\ successful_downloads (fold_left (after_lookup e) ls s)
       + failed_downloads (fold_left (after_lookup e) ls s)
       = successful_downloads s + failed_downloads s + length ls.
Proof.
  induction ls as [|l rest IH]; intros s; [cbn; lia|].
  cbn [fold_left count_found length].
  destruct (IH (after_lookup e s l)) as [H1 H2].
  assert (Hs : successful_downloads (after_lookup e s l)
               = successful_downloads s
                 + match url_found l with Some _ => 1 | None => 0 end)
    by (unfold after_lookup; destruct (url_found l); cbn; lia).
  assert (Hf : successful_downloads (after_lookup e s l)
               + failed_downloads (after_lookup e s l)
               = successful_downloads s + failed_downloads s + 1)
    by (unfold after_lookup; destruct (url_found l); cbn; lia).
  lia.
Qed.

Lemma fold_after_lookup_trace e ls :
  forall s,
    trace (disk (fold_left (after_lookup e) ls s))
    = trace (disk s) ++ map (fun l => EvSleep (delays e (at_index l))) ls.
Proof.
  induction ls as [|l rest IH]; intros s.
  - cbn. rewrite app_nil_r. reflexivity.
  - cbn [fold_left map]. rewrite IH.
    unfold after_lookup. destruct (url_found l); cbn [disk trace];
      rewrite <- app_assoc; reflexivity.
Qed.

Lemma fold_after_lookup_frame e p ls :
  (forall l, l ∈ ls -> url_found l <> None -> p <> link_path (of_id l)) ->
  forall s,
    files (disk (fold_left (after_lookup e) ls s)) !! p
    = files (disk s) !! p.
Proof.
  induction ls as [|l rest IH]; intros Hp s; [reflexivity|].
  cbn [fold_left].
  rewrite IH by (intros l' Hl'; apply Hp; right; exact Hl').
  unfold after_lookup.
  destruct (url_found l) as [u|] eqn:Hu; cbn [disk files]; [|reflexivity].
  apply lookup_insert_ne, not_eq_sym, Hp; [left|rewrite Hu; discriminate].
Qed.


Lemma lookups_ids e ids :
  forall index,
    map of_id (lookups e ids index)
    = filter (fun id => id <> EmptyString) ids.
Proof.
  induction ids as [|id rest IH]; intros index; [reflexivity|].
  cbn [lookups]. destruct (String.eqb_spec id EmptyString) as [->|Hne].
  - rewrite filter_cons_False by congruence. apply IH.
  - rewrite filter_cons_True by exact Hne. cbn [map of_id]. f_equal.
    apply IH.
Qed.

Lemma lookups_at e ids :
  forall index j id,
    ids !! j = Some id ->
    id <> EmptyString ->
    exists before after,
      lookups e ids index
      = before
        ++ Lookup (index + j) id (found_url e (index + j)) :: after.
Proof.
  induction ids as [|id0 rest IH]; intros index j id Hj Hne;
    [inversion Hj|].
  cbn [lookups]. destruct j as [|j].
  - injection Hj as ->. apply String.eqb_neq in Hne. rewrite Hne.
    exists [], (lookups e rest (S index)). rewrite Nat.add_0_r. reflexivity.
  - destruct (IH (S index) j id Hj Hne) as (before & after & Heq).
    replace (index + S j) with (S index + j) by lia.
    destruct (String.eqb id0 EmptyString).
    + exists before, after. exact Heq.
    + exists (Lookup index id0 (found_url e index) :: before), after.
      rewrite Heq. reflexivity.
Qed.

Lemma list_ascii_of_string_app a b :
  list_ascii_of_string (a +:+ b)
  = list_ascii_of_string a ++ list_ascii_of_string b.
Proof.
  induction a as [|c a IH]; [reflexivity|].
  change (c :: list_ascii_of_string (a +:+ b)
          = c :: (list_ascii_of_string a ++ list_ascii_of_string b)).
  rewrite IH. reflexivity.
Qed.

Lemma list_ascii_of_string_inj a b :
  list_ascii_of_string a = list_ascii_of_string b -> a = b.
Proof.
  intros H. apply (f_equal string_of_list_ascii) in H.
  rewrite !string_of_list_ascii_of_string in H. exact H.
Qed.

Lemma link_path_inj a b : link_path a = link_path b -> a = b.
Proof.
  unfold link_path, ospath.join. intros H.
  apply (f_equal list_ascii_of_string) in H.
  rewrite !list_ascii_of_string_app in H.
  apply app_inv_head, app_inv_head, app_inv_tail in H.
  apply list_ascii_of_string_inj, H.
Qed.

(** X16.  For a readable file of identifiers and a browser that starts,
    process_ids looks up every line that is not blank, once and in order:
    the two counters start from zero and add up to the number of such
    lines, the successes are the lookups that gave a URL, and each lookup
    is followed by its delay. *)
Theorem process_ids_accounting e id_file s content :
  files (disk s) !! id_file = Some content ->
  driver_starts e = true ->
  exists s',
    process_ids e id_file s = (Val tt, s')
    /\ map of_id (lookups e (ids_of content) 0)
       = filter (fun id => id <> EmptyString) (ids_of content)
    /\ successful_downloads s' = count_found (lookups e (ids_of content) 0)
    /\ successful_downloads s' + failed_downloads s'
       = length (filter (fun id => id <> EmptyString) (ids_of content))
    /\ trace (disk s')
       = trace (disk s)
         ++ map (fun l => EvSleep (delays e (at_index l)))
              (lookups e (ids_of content) 0).
Proof.
  intros Hfile Hdriver. rewrite process_ids_spec, Hfile, Hdriver.
  eexists. split; [reflexivity|].
  split; [apply lookups_ids|].
  destruct (fold_after_lookup_counters e (lookups e (ids_of content) 0)
              (Session (disk s) 0 0)) as [H1 H2].
  cbn [successful_downloads failed_downloads] in H1, H2.
  split; [rewrite H1; lia|].
  split.
  { rewrite H2, <- (lookups_ids e (ids_of content) 0), length_map. lia. }
  rewrite fold_after_lookup_trace. reflexivity.
Qed.

Lemma process_ids_accounting_witness :
  exists s',
    process_ids Scenario.browser Scenario.id_file Scenario.extraction_start
      = (Val tt, s')
    /\ successful_downloads s' = 1
    /\ successful_downloads s' + failed_downloads s' = 2
    /\ trace (disk s') = [EvSleep 2; EvSleep 2].
Proof.
  destruct (process_ids_accounting Scenario.browser Scenario.id_file
              Scenario.extraction_start (Scenario.bytes Scenario.id_text))
    as (s' & Hp & _ & Hs & Hsum & Ht).
  - reflexivity.
  - reflexivity.
  - exists s'. split; [exact Hp|]. split; [exact Hs|].
    split; [exact Hsum|exact Ht].
Defined.

(** X17.  The link file is what the downloader reads.  When the identifiers of
    the file are plain names and none occurs on two lines, an identifier
    whose lookup gave a URL has, when process_ids returns, a link file
    holding exactly that URL; from that file process_link_file derives the
    same identifier and reads the URL with surrounding white space
    removed. *)
Theorem link_file_hand_off e id_file s content i id u :
  files (disk s) !! id_file = Some content ->
  driver_starts e = true ->
  Forall plain_identifier
    (filter (fun id => id <> EmptyString) (ids_of content)) ->
  NoDup (filter (fun id => id <> EmptyString) (ids_of content)) ->
  ids_of content !! i = Some id ->
  id <> EmptyString ->
  get_link_url (pages e i) = Some u ->
  u <> EmptyString ->
  files (disk (snd (process_ids e id_file s))) !! link_path id
    = Some (list_byte_of_string u)
  /\ link_url (link_path id) (disk (snd (process_ids e id_file s)))
     = Some (strip u)
  /\ compound_id_of (link_path id) = id.
Proof.
  intros Hfile Hdriver Hplain Hnodup Hi Hid Hu Hne.
  assert (Hwritten : files (disk (snd (process_ids e id_file s)))
                       !! link_path id = Some (list_byte_of_string u)).
  { rewrite process_ids_spec, Hfile, Hdriver. cbn [snd].
    destruct (lookups_at e (ids_of content) 0 i id Hi Hid)
      as (before & after & Heq).
    cbn [Nat.add] in Heq.
    assert (Hfound : found_url e i = Some u).
    { unfold found_url. rewrite Hu. destruct u; [congruence|reflexivity]. }
    rewrite Hfound in Heq.
    rewrite <- (lookups_ids e (ids_of content) 0), Heq in Hnodup.
    rewrite map_app in Hnodup. cbn [map of_id] in Hnodup.
    apply NoDup_app in Hnodup as (_ & _ & Hnodup).
    apply NoDup_cons in Hnodup as [Hnotin _].
    rewrite Heq, fold_left_app. cbn [fold_left].
    rewrite fold_after_lookup_frame.
    - unfold after_lookup. cbn [url_found of_id disk files].
      apply lookup_insert_eq.
    - intros l Hl _ Hpath. apply link_path_inj in Hpath.
      apply Hnotin. rewrite Hpath. apply list_elem_of_fmap.
      exists l. split; [reflexivity|exact Hl]. }
  split; [exact Hwritten|]. split.
  - unfold link_url. rewrite Hwritten, string_of_list_byte_of_string.
    reflexivity.
  - apply compound_id_of_link.
    rewrite Forall_forall in Hplain. apply Hplain.
    apply list_elem_of_filter. split; [exact Hid|].
    apply list_elem_of_lookup. eauto.
Qed.

Lemma link_file_hand_off_witness :
  files (disk (snd (process_ids Scenario.browser Scenario.id_file
                      Scenario.extraction_start)))
    !! link_path "SN0001" = Some (Scenario.bytes Scenario.url)
  /\ link_url (link_path "SN0001")
       (disk (snd (process_ids Scenario.browser Scenario.id_file
                     Scenario.extraction_start)))
     = Some Scenario.url
  /\ compound_id_of (link_path "SN0001") = "SN0001".
Proof.
  apply (link_file_hand_off Scenario.browser Scenario.id_file
           Scenario.extraction_start (Scenario.bytes Scenario.id_text)
           0 "SN0001" Scenario.url).
  - reflexivity.
  - reflexivity.
  - apply (bool_decide_unpack _). vm_compute. exact I.
  - apply (bool_decide_unpack _). vm_compute. exact I.
  - reflexivity.
  - discriminate.
  - reflexivity.
  - discriminate.
Defined.

